(** * nox-review: change detection and build dispatch

    A shallow embedding of [nox/review.py].  Python [str] values are
    [string]s, Python [set]s of strings are [gset string], exceptions are
    an explicit [result] type, and the external processes the tool drives
    (git, nix-env, nix-build, ls) are an oracle together with a recorded
    trace of the calls made. *)

From Stdlib Require Import ZArith Ascii String.
From stdpp Require Import base option list strings pretty gmap sets.

Open Scope string_scope.
Open Scope list_scope.

(** ** Exceptions and results *)

Inductive exn : Type :=
  | IndexError
  | CalledProcessError (returncode : Z) (cmd : list string)
  | RequestError.

Inductive result (A : Type) : Type :=
  | Ok (a : A)
  | Raise (e : exn).
Arguments Ok {A} a.
Arguments Raise {A} e.

Definition result_bind {A B} (r : result A) (k : A → result B) : result B :=
  match r with
  | Ok a => k a
  | Raise e => Raise e
  end.

(** Evaluating [f] on every element of a list, left to right, stopping at
    the first exception. *)
Fixpoint traverse {A B} (f : A → result B) (l : list A) : result (list B) :=
  match l with
  | [] => Ok []
  | x :: l' =>
      result_bind (f x) (λ y,
      result_bind (traverse f l') (λ ys, Ok (y :: ys)))
  end.

(** ** Python string operations *)

Module Py.

(** [str.isspace] on one character, for the code points below 256:
    TAB..CR, FS..US, SPACE, NEL and NBSP. *)
Definition isspace (c : ascii) : bool :=
  let n := nat_of_ascii c in
  ((9 <=? n)%nat && (n <=? 13)%nat) || ((28 <=? n)%nat && (n <=? 32)%nat)
  || (n =? 133)%nat || (n =? 160)%nat.

Definition push (cur : string) (c : ascii) : string :=
  cur +:+ String c "".

Definition flush (cur : string) (rest : list string) : list string :=
  match cur with
  | "" => rest
  | _ => cur :: rest
  end.

(** [s.split()]: the maximal runs of non-whitespace characters of [s];
    [cur] is the run being read. *)
Fixpoint split_ws (cur s : string) : list string :=
  match s with
  | "" => flush cur []
  | String c s' =>
      if isspace c then flush cur (split_ws "" s')
      else split_ws (push cur c) s'
  end.

Definition split (s : string) : list string := split_ws "" s.

(** [s.split(sep)] for a one-character separator: empty fields are
    kept, so the result is never empty. *)
Fixpoint split_sep (sep : ascii) (cur s : string) : list string :=
  match s with
  | "" => [cur]
  | String c s' =>
      if Ascii.eqb c sep then cur :: split_sep sep "" s'
      else split_sep sep (push cur c) s'
  end.

Definition split_on (sep : ascii) (s : string) : list string :=
  split_sep sep "" s.

(** [sep.join(l)] *)
Fixpoint join (sep : string) (l : list string) : string :=
  match l with
  | [] => ""
  | [x] => x
  | x :: l' => x +:+ sep +:+ join sep l'
  end.

(** [s.strip()]: whitespace removed at both ends. *)
Fixpoint lstrip (s : string) : string :=
  match s with
  | "" => ""
  | String c s' => if isspace c then lstrip s' else s
  end.

Fixpoint rstrip (s : string) : string :=
  match s with
  | "" => ""
  | String c s' =>
      match rstrip s' with
      | "" => if isspace c then "" else String c ""
      | t => String c t
      end
  end.

Definition strip (s : string) : string := rstrip (lstrip s).

(** [l[0]] *)
Definition index0 {A} (l : list A) : result A :=
  match l with
  | [] => Raise IndexError
  | x :: _ => Ok x
  end.

(** [a ^ b] on sets *)
Definition symmetric_difference (a b : gset string) : gset string :=
  (a ∖ b) ∪ (b ∖ a).

End Py.

Definition newline : ascii := ascii_of_nat 10.

Definition dquote : string := String (ascii_of_nat 34) "".

(** ** The differ *)

(** [l.split()[0]] *)
Definition first_token (l : string) : result string :=
  Py.index0 (Py.split l).

(** [differences(old, new)]: the set comprehension visits the elements of
    [raw] and fails as soon as one of them has no token. *)
Definition differences (old new : gset string) : result (gset string) :=
  let raw := Py.symmetric_difference old new in
  result_bind (traverse first_token (elements raw)) (λ names,
  Ok (list_to_set names)).


(** ** The outside world

    Everything the tool does to its environment is an [event], appended
    to the trace of the world in the order it happens. *)

Inductive event : Type :=
  | Call (argv : list string) (cwd : option string)
  | Echo (msg : string)
  | Secho (msg fg : string)
  | Mkdir (path : string)
  | Mkdtemp (path : string)
  | HttpGet (url : string).

Record payload : Type := Payload {
  title : string;
  head_sha : string;
  base_sha : string
}.

(** What the tool cannot decide by itself: where it runs, and how the
    processes it starts answer.  The exit status of a command may depend
    on everything that happened before it; its output may depend on the
    revision checked out in the mirror. *)
Record Env : Type := {
  app_dir : string;
  cwd_path : string;
  cwd_is_repo : bool;
  resolve : string → string;
  mkdtemp_path : string → nat → string;
  returncode : list event → list string → option string → Z;
  stdout : option string → list string → option string → string;
  pulls : Z → result payload
}.

Record world : Type := World {
  trace : list event;
  cache : gmap string (gset string);
  mirror_head : option string;
  nox_dir_exists : bool;
  mirror_exists : bool;
  tmp_count : nat
}.

Definition log (ev : event) (w : world) : world :=
  World (trace w ++ [ev]) (cache w) (mirror_head w)
        (nox_dir_exists w) (mirror_exists w) (tmp_count w).

Definition set_cache (c : gmap string (gset string)) (w : world) : world :=
  World (trace w) c (mirror_head w)
        (nox_dir_exists w) (mirror_exists w) (tmp_count w).

Definition set_mirror_head (sha : string) (w : world) : world :=
  World (trace w) (cache w) (Some sha)
        (nox_dir_exists w) (mirror_exists w) (tmp_count w).

Definition set_nox_dir_exists (w : world) : world :=
  World (trace w) (cache w) (mirror_head w)
        true (mirror_exists w) (tmp_count w).

Definition set_mirror_exists (w : world) : world :=
  World (trace w) (cache w) (mirror_head w)
        (nox_dir_exists w) true (tmp_count w).

Definition bump_tmp (w : world) : world :=
  World (trace w) (cache w) (mirror_head w)
        (nox_dir_exists w) (mirror_exists w) (S (tmp_count w)).

(** ** Computations: state and exceptions

    The world reached when an exception is raised is kept, as in Python. *)

Definition M (A : Type) : Type := world → result A * world.

Definition ret {A} (a : A) : M A := λ w, (Ok a, w).

Definition raise {A} (e : exn) : M A := λ w, (Raise e, w).

Definition bind {A B} (k : A → M B) (m : M A) : M B := λ w,
  match m w with
  | (Ok a, w') => k a w'
  | (Raise e, w') => (Raise e, w')
  end.

#[global] Instance M_ret : MRet M := @ret.
#[global] Instance M_bind : MBind M := @bind.

Definition lift {A} (r : result A) : M A := λ w, (r, w).

(** [pass] *)
Definition pass : M unit := ret tt.

(** [try: m except: h] *)
Definition try_except {A} (m : M A) (h : exn → M A) : M A := λ w,
  match m w with
  | (Ok a, w') => (Ok a, w')
  | (Raise e, w') => h e w'
  end.

(** [try: m finally: f]; an exception of [f] replaces the outcome of [m]. *)
Definition try_finally {A} (m : M A) (f : M unit) : M A := λ w,
  match m w with
  | (r, w') =>
      match f w' with
      | (Ok _, w'') => (r, w'')
      | (Raise e, w'') => (Raise e, w'')
      end
  end.

(** The exit status of the process when the command body ends with [r]:
    a normal return exits with 0, an uncaught exception with 1. *)
Definition exit_status {A} (r : result A) : Z :=
  match r with
  | Ok _ => 0
  | Raise _ => 1
  end.

(** ** Collaborators *)

Section Review.
Context (E : Env).

Definition echo (msg : string) : M unit := λ w, (Ok tt, log (Echo msg) w).

Definition secho (msg fg : string) : M unit := λ w,
  (Ok tt, log (Secho msg fg) w).

(** [click.style(s, bold=True)] *)
Definition bold (s : string) : string :=
  String (ascii_of_nat 27) "[1m" +:+ s +:+ String (ascii_of_nat 27) "[0m".

Definition nox_dir : string := app_dir E.

Definition nixpkgs_path : string := nox_dir +:+ "/nixpkgs".

(** What a command that exited with 0 changed in the world: a checkout in
    the mirror moves its head, [git init] of the mirror creates it. *)
Definition effect (argv : list string) (cwd : option string) (w : world)
  : world :=
  match argv with
  | [g; c; x] =>
      if bool_decide (g = "git" ∧ c = "checkout" ∧ cwd = Some nixpkgs_path)
      then set_mirror_head x w
      else if bool_decide (g = "git" ∧ c = "init" ∧ x = nixpkgs_path)
      then set_mirror_exists w
      else w
  | _ => w
  end.

(** [subprocess.check_call(argv, cwd=cwd)].  The embedding covers the
    runs in which the program named by [argv] can be started: the call
    then ends with an exit status, and [CalledProcessError] is the only
    exception it raises.  The [OSError] of a program that cannot be
    started is outside the model. *)
Definition check_call (argv : list string) (cwd : option string) : M unit :=
  λ w,
  let rc := returncode E (trace w) argv cwd in
  let w1 := log (Call argv cwd) w in
  if (rc =? 0)%Z then (Ok tt, effect argv cwd w1)
  else (Raise (CalledProcessError rc argv), w1).

(** [subprocess.check_output(argv, cwd=cwd)], decoded; same scope as
    [check_call]. *)
Definition check_output (argv : list string) (cwd : option string)
  : M string := λ w,
  let rc := returncode E (trace w) argv cwd in
  let out := stdout E (mirror_head w) argv cwd in
  let w1 := log (Call argv cwd) w in
  if (rc =? 0)%Z then (Ok out, effect argv cwd w1)
  else (Raise (CalledProcessError rc argv), w1).

(** [tempfile.mkdtemp(prefix=prefix)], on a file system where the
    directory can be created. *)
Definition mkdtemp (prefix : string) : M string := λ w,
  let d := mkdtemp_path E prefix (tmp_count w) in
  (Ok d, bump_tmp (log (Mkdtemp d) w)).

(** Modelled from the spec: the cache region of [nox/cache.py] and its
    [cache_on_arguments] decorator.  The store is keyed by the revision
    identifier; an entry is created on the first lookup of an identifier
    and never invalidated; a lookup that finds an entry returns it without
    running the decorated function. *)
Definition cache_on_arguments (f : string → M (gset string)) (key : string)
  : M (gset string) := λ w,
  match cache w !! key with
  | Some v => (Ok v, w)
  | None =>
      match f key w with
      | (Ok v, w') => (Ok v, set_cache (<[key := v]> (cache w')) w')
      | (Raise e, w') => (Raise e, w')
      end
  end.

(** [nox_dir.exists()], [nox_dir.mkdir()] (on a file system where the
    directory can be created) and [nixpkgs.exists()] *)
Definition exists_nox_dir : M bool := λ w, (Ok (nox_dir_exists w), w).

Definition mkdir_nox_dir : M unit := λ w,
  (Ok tt, set_nox_dir_exists (log (Mkdir nox_dir) w)).

Definition exists_nixpkgs : M bool := λ w, (Ok (mirror_exists w), w).

(** ** The functions of [review.py] *)

Definition to_sha (commit : string) : M string :=
  output ← check_output ["git"; "rev-parse"; "--verify"; commit] None;
  ret (Py.strip output).

Definition nix_env_command (path : string) : list string :=
  ["nix-env"; "-f"; path; "-qaP"; "--drv-path"].

Definition parse_packages (output : string) : gset string :=
  list_to_set (Py.split_on newline output).

Definition packages (path : string) : M (gset string) :=
  output ← check_output (nix_env_command path) None;
  ret (parse_packages output).

Definition local_add_command : list string :=
  ["git"; "remote"; "add"; "local"; "-f"; cwd_path E].

Definition local_remove_command : list string :=
  ["git"; "remote"; "remove"; "local"].

(** The [try: ... except: pass finally: ...] block of [get_nixpkgs],
    entered when the current directory has a [.git]. *)
Definition fetch_from_cwd : M unit :=
  try_finally
    (try_except (check_call local_add_command (Some nixpkgs_path))
                (λ _, pass))
    (check_call local_remove_command (Some nixpkgs_path)).

Definition get_nixpkgs : M string :=
  present ← exists_nox_dir;
  (if (present : bool) then pass else mkdir_nox_dir);;
  present ← exists_nixpkgs;
  (if (present : bool) then pass
   else
     echo "Cloning nixpkgs";;
     check_call ["git"; "init"; nixpkgs_path] None;;
     check_call ["git"; "remote"; "add"; "origin";
                 "https://github.com/NixOS/nixpkgs.git"]
                (Some nixpkgs_path));;
  (if cwd_is_repo E then fetch_from_cwd else pass);;
  check_call ["git"; "fetch"; "origin"; "master"] (Some nixpkgs_path);;
  check_call ["git"; "fetch"; "origin";
              "+refs/pull/*/head:refs/remotes/origin/pr/*"]
             (Some nixpkgs_path);;
  ret nixpkgs_path.

Definition packages_for_sha_body (sha : string) : M (gset string) :=
  nixpkgs ← get_nixpkgs;
  check_call ["git"; "checkout"; sha] (Some nixpkgs);;
  packages nixpkgs.

Definition packages_for_sha : string → M (gset string) :=
  cache_on_arguments packages_for_sha_body.

Definition build_command (attrs : list string) (canonical_path : string)
  : list string :=
  ["nix-build"] ++ flat_map (λ a, ["-A"; a]) attrs ++ [canonical_path].

(** ['The invocation of "{}" failed'.format(' '.join(command))] *)
Definition failure_message (command : list string) : string :=
  "The invocation of " +:+ dquote +:+ Py.join " " command +:+ dquote
  +:+ " failed".

(** [attrs] is the sequence in which the caller's collection is iterated. *)
Definition build_in_path (attrs : list string) (path : string) : M unit :=
  match attrs with
  | [] => echo "Nothing changed"
  | _ =>
      let canonical_path := resolve E path in
      result_dir ← mkdtemp "nox-review-";
      echo ("Building in " +:+ bold result_dir +:+ ": "
            +:+ bold (Py.join " " attrs));;
      let command := build_command attrs canonical_path in
      try_except
        (check_call command (Some result_dir))
        (λ e, match e with
              | CalledProcessError _ _ =>
                  secho (failure_message command) "red"
              | _ => raise e
              end);;
      echo ("Result in " +:+ bold result_dir);;
      check_call ["ls"; "-l"; result_dir] None
  end.

Definition build_sha (attrs : list string) (sha : string) : M unit :=
  nixpkgs ← get_nixpkgs;
  check_call ["git"; "checkout"; sha] (Some nixpkgs);;
  build_in_path attrs nixpkgs.

Definition revs (current_rev reference_rev : string) : M unit :=
  old ← packages_for_sha reference_rev;
  new ← packages_for_sha current_rev;
  attrs ← lift (differences old new);
  build_sha (elements attrs) current_rev.

Definition wip (against : string) : M unit :=
  old ← packages ".";
  sha ← to_sha against;
  new ← packages_for_sha sha;
  attrs ← lift (differences old new);
  build_in_path (elements attrs) ".".

Definition pull_url (pr : Z) : string :=
  "https://api.github.com/repos/NixOS/nixpkgs/pulls/" +:+ pretty pr.

Definition http_get_json (pr : Z) : M payload := λ w,
  (pulls E pr, log (HttpGet (pull_url pr)) w).

Definition review_pr (pr : Z) : M unit :=
  payload ← http_get_json pr;
  echo ("Reviewing PR " +:+ bold (pretty pr) +:+ " : "
        +:+ bold (title payload));;
  let head := head_sha payload in
  let base := base_sha payload in
  nixpkgs ← get_nixpkgs;
  out ← check_output ["git"; "merge-base"; head; base] (Some nixpkgs);
  let root := Py.strip out in
  old ← packages_for_sha head;
  new ← packages_for_sha root;
  attrs ← lift (differences old new);
  build_sha (elements attrs) head.

End Review.

Arguments effect : simpl never.

(** ** Specification vocabulary *)

(** An attribute name is one token: not empty and free of whitespace. *)
Fixpoint no_space (s : string) : bool :=
  match s with
  | "" => true
  | String c s' => negb (Py.isspace c) && no_space s'
  end.

Definition attribute_name (name : string) : Prop :=
  name ≠ "" ∧ no_space name = true.

(** The line the evaluator prints for an attribute. *)
Definition entry (name path : string) : string := name +:+ " " +:+ path.

(** Every command exits with status 0. *)
Definition all_succeed (E : Env) : Prop :=
  ∀ h argv cwd, returncode E h argv cwd = 0%Z.

(** The attribute set of a revision: what the evaluator reports on the
    mirror while that revision is checked out there. *)
Definition revision_packages (E : Env) (sha : string) : gset string :=
  parse_packages (stdout E (Some sha) (nix_env_command (nixpkgs_path E)) None).

(** Every cached set is the attribute set of its revision. *)
Definition cache_sound (E : Env) (w : world) : Prop :=
  ∀ sha s, cache w !! sha = Some s → s = revision_packages E sha.

(** The revisions checked out by the events of a trace, in order. *)
Definition checkout_of (ev : event) : option string :=
  match ev with
  | Call [g; c; sha] _ =>
      if bool_decide (g = "git" ∧ c = "checkout") then Some sha else None
  | _ => None
  end.

Definition checkouts (evs : list event) : list string :=
  omap checkout_of evs.

(** ** A concrete environment

    The mirror lives in [/home/u/.nox/nixpkgs]; revision [mmm] has the
    attributes foo and bar, revision [hhh] changes bar and adds baz; the
    merge base of [hhh] and [bbb] is [mmm].  [codes] gives the exit
    status of each command. *)

Definition nl : string := String newline "".

Definition demo_stdout (head : option string) (argv : list string)
    (cwd : option string) : string :=
  match argv with
  | prog :: _ =>
      if bool_decide (prog = "nix-env") then
        if bool_decide (head = Some "hhh") then
          "foo /nix/a" +:+ nl +:+ "bar /nix/c" +:+ nl
          +:+ "baz /nix/d" +:+ nl
        else if bool_decide (head = Some "mmm") then
          "foo /nix/a" +:+ nl +:+ "bar /nix/b" +:+ nl
        else nl
      else if bool_decide (argv = ["git"; "merge-base"; "hhh"; "bbb"]) then
        "mmm" +:+ nl
      else ""
  | [] => ""
  end.

Definition demo_env (codes : list string → Z) : Env := {|
  app_dir := "/home/u/.nox";
  cwd_path := "/src/nixpkgs";
  cwd_is_repo := true;
  resolve := λ p, if bool_decide (p = ".") then "/src/nixpkgs" else p;
  mkdtemp_path := λ prefix n, "/tmp/" +:+ prefix +:+ pretty n;
  returncode := λ _ argv _, codes argv;
  stdout := demo_stdout;
  pulls := λ pr,
    if bool_decide (pr = 123%Z) then Ok (Payload "bar: 1.0 -> 1.1" "hhh" "bbb")
    else Raise RequestError
|}.

Definition no_failure (argv : list string) : Z := 0.

Definition build_fails (argv : list string) : Z :=
  if bool_decide (head argv = Some "nix-build") then 1 else 0.

Definition local_remote_fails (argv : list string) : Z :=
  if bool_decide (argv = ["git"; "remote"; "add"; "local"; "-f";
                          "/src/nixpkgs"]) then 128
  else if bool_decide (argv = ["git"; "remote"; "remove"; "local"]) then 2
  else 0.

Definition local_add_fails (argv : list string) : Z :=
  if bool_decide (argv = ["git"; "remote"; "add"; "local"; "-f";
                          "/src/nixpkgs"]) then 1
  else 0.

Definition world0 : world := World [] ∅ None true true 0.

(** ** Vocabulary for the properties of the remaining code *)

Fixpoint all_space (s : string) : bool :=
  match s with
  | "" => true
  | String c s' => Py.isspace c && all_space s'
  end.

Fixpoint no_newline (s : string) : bool :=
  match s with
  | "" => true
  | String c s' => negb (Ascii.eqb c newline) && no_newline s'
  end.

(** The commands of the mirror setup. *)
Definition init_command (E : Env) : list string :=
  ["git"; "init"; nixpkgs_path E].

Definition origin_command : list string :=
  ["git"; "remote"; "add"; "origin"; "https://github.com/NixOS/nixpkgs.git"].

Definition fetch_master_command : list string :=
  ["git"; "fetch"; "origin"; "master"].

Definition fetch_pulls_command : list string :=
  ["git"; "fetch"; "origin"; "+refs/pull/*/head:refs/remotes/origin/pr/*"].

(** Every event the mirror setup can produce. *)
Definition setup_events (E : Env) : list event :=
  [Mkdir (nox_dir E);
   Echo "Cloning nixpkgs";
   Call (init_command E) None;
   Call origin_command (Some (nixpkgs_path E));
   Call fetch_master_command (Some (nixpkgs_path E));
   Call fetch_pulls_command (Some (nixpkgs_path E))]
  ++ (if cwd_is_repo E
      then [Call (local_add_command E) (Some (nixpkgs_path E));
            Call local_remove_command (Some (nixpkgs_path E))]
      else []).

(** The program an event starts, if it starts one. *)
Definition program_of (ev : event) : option string :=
  match ev with
  | Call (prog :: _) _ => Some prog
  | _ => None
  end.

(** [w'] differs from [w] by events that satisfy [P] only: same cache,
    same revision checked out in the mirror. *)
Definition frame (P : event → Prop) (w w' : world) : Prop :=
  cache w' = cache w
  ∧ mirror_head w' = mirror_head w
  ∧ ∃ evs, trace w' = trace w ++ evs ∧ Forall P evs.

(** What a run of the mirror setup from [w] can end with. *)
Definition setup_outcome (E : Env) (w : world) (r : result string)
    (w' : world) : Prop :=
  frame (λ ev, ev ∈ setup_events E) w w'
  ∧ match r with
    | Ok p =>
        p = nixpkgs_path E
        ∧ nox_dir_exists w' = true
        ∧ mirror_exists w' = true
        ∧ ∃ pre,
            trace w'
            = trace w ++ pre
              ++ [Call fetch_master_command (Some (nixpkgs_path E));
                  Call fetch_pulls_command (Some (nixpkgs_path E))]
    | Raise e =>
        ∃ rc argv cwd,
          e = CalledProcessError rc argv
          ∧ rc ≠ 0%Z
          ∧ argv ≠ local_add_command E
          ∧ last (trace w') = Some (Call argv cwd)
    end.

(** Environments for the working-tree review: the tree in [.] has the
    attributes of [hhh], and [HEAD] resolves to [mmm]. *)
Definition tree_stdout (head : option string) (argv : list string)
    (cwd : option string) : string :=
  if bool_decide (argv = ["nix-env"; "-f"; "."; "-qaP"; "--drv-path"]) then
    "foo /nix/a" +:+ nl +:+ "bar /nix/c" +:+ nl +:+ "baz /nix/d" +:+ nl
  else if bool_decide (argv = ["git"; "rev-parse"; "--verify"; "HEAD"]) then
    "mmm" +:+ nl
  else demo_stdout head argv cwd.

Definition tree_env (is_repo : bool) (codes : list string → Z) : Env := {|
  app_dir := "/home/u/.nox";
  cwd_path := "/src/nixpkgs";
  cwd_is_repo := is_repo;
  resolve := λ p, if bool_decide (p = ".") then "/src/nixpkgs" else p;
  mkdtemp_path := λ prefix n, "/tmp/" +:+ prefix +:+ pretty n;
  returncode := λ _ argv _, codes argv;
  stdout := tree_stdout;
  pulls := λ pr, Raise RequestError
|}.

Definition rev_parse_fails (argv : list string) : Z :=
  if bool_decide (argv = ["git"; "rev-parse"; "--verify"; "HEAD"])
  then 128 else 0.

Definition checkout_fails (argv : list string) : Z :=
  if bool_decide (argv = ["git"; "checkout"; "hhh"]) then 1 else 0.

Definition fetch_fails (argv : list string) : Z :=
  if bool_decide (argv = ["git"; "fetch"; "origin"; "master"]) then 128
  else 0.

Definition listing_fails (argv : list string) : Z :=
  if bool_decide (head argv = Some "ls") then 2 else 0.

Definition build_and_listing_fail (argv : list string) : Z :=
  if bool_decide (head argv = Some "nix-build") then 1
  else listing_fails argv.

(** The events the mirror setup produces once the mirror exists. *)
Definition refetch_events (E : Env) : list event :=
  [Call (local_add_command E) (Some (nixpkgs_path E));
   Call local_remove_command (Some (nixpkgs_path E));
   Call fetch_master_command (Some (nixpkgs_path E));
   Call fetch_pulls_command (Some (nixpkgs_path E))].

(** What a run of the builder from [w] on a non-empty list ends with. *)
Definition build_outcome (E : Env) (attrs : list string) (path : string)
    (w : world) (r : result unit) (w' : world) : Prop :=
  let d := mkdtemp_path E "nox-review-" (tmp_count w) in
  cache w' = cache w
  ∧ mirror_head w' = mirror_head w
  ∧ tmp_count w' = S (tmp_count w)
  ∧ (∃ msg rest,
       trace w'
       = trace w ++ [Mkdtemp d; Echo msg;
                     Call (build_command attrs (resolve E path)) (Some d)]
         ++ rest
       ∧ Forall (λ ev, program_of ev = None ∨ program_of ev = Some "ls") rest
       ∧ last (trace w') = Some (Call ["ls"; "-l"; d] None))
  ∧ ∀ e, r = Raise e →
         ∃ rc, e = CalledProcessError rc ["ls"; "-l"; d] ∧ rc ≠ 0%Z.


(** * Properties *)

(** ** Sanity checks on concrete inputs *)

Example split_example :
  Py.split "  foo   /nix/a bar " = ["foo"; "/nix/a"; "bar"].
Proof. reflexivity. Qed.

Example split_blank_example : Py.split "   " = [] ∧ Py.split "" = [].
Proof. split; reflexivity. Qed.

Example split_on_example :
  Py.split_on newline ("a 1" +:+ nl +:+ nl +:+ "b 2")
  = ["a 1"; ""; "b 2"]
  ∧ Py.split_on newline "" = [""].
Proof. split; reflexivity. Qed.

Example strip_example : Py.strip ("  mmm " +:+ nl) = "mmm".
Proof. reflexivity. Qed.

Example build_command_example :
  build_command ["x"; "y"] "/p" = ["nix-build"; "-A"; "x"; "-A"; "y"; "/p"].
Proof. reflexivity. Qed.

(** ** Strings *)

Lemma append_cons (c : ascii) (s t : string) :
  String c s +:+ t = String c (s +:+ t).
Proof. reflexivity. Qed.

Lemma append_empty_l (s : string) : "" +:+ s = s.
Proof. reflexivity. Qed.

Lemma append_empty_r (s : string) : s +:+ "" = s.
Proof.
  induction s as [|c s IH]; [done |]. by rewrite append_cons, IH.
Qed.

Lemma append_assoc (s t u : string) : (s +:+ t) +:+ u = s +:+ t +:+ u.
Proof.
  induction s as [|c s IH]; [done |]. by rewrite !append_cons, IH.
Qed.

Lemma append_inj_r (s t u : string) : s +:+ t = s +:+ u → t = u.
Proof. apply String.app_inj. Qed.

Lemma split_ws_token (tok : string) :
  no_space tok = true →
  ∀ cur s, Py.split_ws cur (tok +:+ s) = Py.split_ws (cur +:+ tok) s.
Proof.
  induction tok as [|c tok IH]; intros Htok cur s.
  - rewrite append_empty_r. done.
  - simpl in Htok. apply andb_prop in Htok as [Hc Htok].
    apply negb_true_iff in Hc.
    rewrite append_cons. cbn [Py.split_ws]. rewrite Hc.
    rewrite IH by done. unfold Py.push. by rewrite append_assoc.
Qed.

Lemma flush_cons (cur : string) (rest : list string) :
  cur ≠ "" → Py.flush cur rest = cur :: rest.
Proof. by destruct cur. Qed.

Lemma first_token_entry (name path : string) :
  attribute_name name → first_token (entry name path) = Ok name.
Proof.
  intros [Hne Hsp]. unfold first_token, Py.split, entry.
  rewrite split_ws_token by done.
  rewrite append_cons, append_empty_l. cbn [Py.split_ws].
  change (Py.isspace " ") with true. cbn iota.
  by rewrite flush_cons.
Qed.

Lemma entry_inj (name p1 p2 : string) :
  entry name p1 = entry name p2 → p1 = p2.
Proof.
  unfold entry. intros H. apply append_inj_r in H. by injection H.
Qed.

Lemma first_token_Raise (l : string) (e : exn) :
  first_token l = Raise e → e = IndexError ∧ Py.split l = [].
Proof.
  unfold first_token. destruct (Py.split l); simpl; [|done].
  by intros [= <-].
Qed.

Lemma first_token_Ok (l : string) :
  Py.split l ≠ [] → ∃ n, first_token l = Ok n.
Proof.
  unfold first_token. destruct (Py.split l); [done | eauto].
Qed.

(** ** Traversals *)

Lemma traverse_Ok {A B} (f : A → result B) (l : list A) (ys : list B) :
  traverse f l = Ok ys ↔ Forall2 (λ x y, f x = Ok y) l ys.
Proof.
  revert ys. induction l as [|x l IH]; intros ys; simpl.
  - split.
    + intros [= <-]. constructor.
    + intros H. by inversion H.
  - destruct (f x) as [y|e] eqn:Hx; simpl.
    + destruct (traverse f l) as [ys'|e] eqn:Hl; simpl.
      * split.
        -- intros [= <-]. constructor; [done | by apply IH].
        -- intros H. inversion H as [|? y0 ? ys0 Hy Hys]; subst.
           apply IH in Hys. congruence.
      * split; [done |].
        intros H. inversion H as [|? y0 ? ys0 Hy Hys]; subst.
        apply IH in Hys. done.
    + split; [done |].
      intros H. inversion H; congruence.
Qed.

Lemma traverse_total {A B} (f : A → result B) (l : list A) :
  (∀ x, x ∈ l → ∃ y, f x = Ok y) → ∃ ys, traverse f l = Ok ys.
Proof.
  induction l as [|x l IH]; intros H; simpl; [eauto |].
  destruct (H x) as [y ->]; [left |]. simpl.
  destruct IH as [ys ->]; [intros; apply H; by right |].
  simpl. eauto.
Qed.

Lemma traverse_Raise {A B} (f : A → result B) (l : list A) (e : exn) :
  traverse f l = Raise e → ∃ x, x ∈ l ∧ f x = Raise e.
Proof.
  induction l as [|x l IH]; simpl; [done |].
  destruct (f x) as [y|e'] eqn:Hx; simpl.
  - destruct (traverse f l) as [ys|e'] eqn:Hl; simpl; [done |].
    intros [= ->]. destruct IH as (x' & ? & ?); [done |].
    exists x'. split; [by right | done].
  - intros [= ->]. exists x. split; [left | done].
Qed.

(** ** The differ *)

Lemma elem_of_symmetric_difference (a b : gset string) (l : string) :
  l ∈ Py.symmetric_difference a b ↔ (l ∈ a ∧ l ∉ b) ∨ (l ∈ b ∧ l ∉ a).
Proof. unfold Py.symmetric_difference. set_solver. Qed.

Lemma symmetric_difference_comm (a b : gset string) :
  Py.symmetric_difference a b = Py.symmetric_difference b a.
Proof. unfold Py.symmetric_difference. apply union_comm_L. Qed.

(** When [differences] returns, the names returned are exactly the first
    tokens of the entries found in one set only. *)
Lemma differences_Ok_elem (old new D : gset string) :
  differences old new = Ok D →
  ∀ n, n ∈ D ↔
       ∃ l, l ∈ Py.symmetric_difference old new ∧ first_token l = Ok n.
Proof.
  unfold differences.
  destruct (traverse first_token _) as [names|e] eqn:Ht; simpl; [|done].
  intros [= <-] n. apply traverse_Ok in Ht.
  rewrite elem_of_list_to_set. split.
  - intros Hn. apply list_elem_of_lookup in Hn as [i Hi].
    destruct (Forall2_lookup_r _ _ _ _ _ Ht Hi) as (l & Hl & Hf).
    exists l. split; [|done].
    apply elem_of_elements, list_elem_of_lookup. eauto.
  - intros (l & Hl & Hf).
    apply elem_of_elements, list_elem_of_lookup in Hl as [i Hi].
    destruct (Forall2_lookup_l _ _ _ _ _ Ht Hi) as (n' & Hn' & Hf').
    assert (n' = n) as -> by congruence.
    apply list_elem_of_lookup. eauto.
Qed.

Lemma differences_total (old new : gset string) :
  (∀ l, l ∈ Py.symmetric_difference old new → Py.split l ≠ []) →
  ∃ D, differences old new = Ok D.
Proof.
  intros H. unfold differences.
  destruct (traverse_total first_token
              (elements (Py.symmetric_difference old new))) as [ys ->].
  - intros l Hl. apply first_token_Ok, H. by apply elem_of_elements.
  - simpl. eauto.
Qed.

Lemma differences_Raise (old new : gset string) (e : exn) :
  differences old new = Raise e →
  e = IndexError ∧
  ∃ l, l ∈ Py.symmetric_difference old new ∧ Py.split l = [].
Proof.
  unfold differences.
  destruct (traverse first_token _) as [names|e'] eqn:Ht; simpl; [done |].
  intros [= ->]. apply traverse_Raise in Ht as (l & Hl & Hf).
  apply first_token_Raise in Hf as [-> Hs].
  split; [done |]. exists l. split; [|done]. by apply elem_of_elements.
Qed.

Lemma differences_Ok_tokens (old new D : gset string) :
  differences old new = Ok D →
  ∀ l, l ∈ Py.symmetric_difference old new → Py.split l ≠ [].
Proof.
  unfold differences.
  destruct (traverse first_token _) as [names|e] eqn:Ht; simpl; [|done].
  intros _ l Hl. apply traverse_Ok in Ht.
  apply elem_of_elements, list_elem_of_lookup in Hl as [i Hi].
  destruct (Forall2_lookup_l _ _ _ _ _ Ht Hi) as (n & _ & Hf).
  unfold first_token in Hf. by destruct (Py.split l).
Qed.

(** C1.  On the sets A = {"foo /nix/a", "bar /nix/b"} and
    B = {"foo /nix/a", "bar /nix/c", "baz /nix/d"} the differ returns
    exactly {"bar", "baz"}: the entry common to both sets is dropped, the
    three entries found in one set only survive, and each of them is
    projected to its first token. *)
Theorem differences_scenario :
  let A : gset string := {[ "foo /nix/a"; "bar /nix/b" ]} in
  let B : gset string := {[ "foo /nix/a"; "bar /nix/c"; "baz /nix/d" ]} in
  Py.symmetric_difference A B
    = {[ "bar /nix/b"; "bar /nix/c"; "baz /nix/d" ]}
  ∧ traverse first_token ["bar /nix/b"; "bar /nix/c"; "baz /nix/d"]
    = Ok ["bar"; "bar"; "baz"]
  ∧ differences A B = Ok {[ "bar"; "baz" ]}.
Proof. repeat split; vm_compute; reflexivity. Qed.

(** C8.  The differ is symmetric in its two arguments: on every pair of
    sets, [differences A B] and [differences B A] have the same outcome
    (the same name set, or the same exception). *)
Theorem differences_symmetric (A B : gset string) :
  differences A B = differences B A.
Proof.
  unfold differences. by rewrite (symmetric_difference_comm A B).
Qed.

(** C10.  The differ is partial.  It raises [IndexError] exactly when
    some entry found in one set only has no token, as the empty string
    does, and it returns a name set exactly when every such entry has at
    least one token. *)
Theorem differences_partial :
  differences {[ "" ]} ∅ = Raise IndexError
  ∧ ∀ old new : gset string,
      ((∃ l, l ∈ Py.symmetric_difference old new ∧ Py.split l = [])
       ↔ differences old new = Raise IndexError)
      ∧ ((∀ l, l ∈ Py.symmetric_difference old new → Py.split l ≠ [])
         ↔ ∃ D, differences old new = Ok D).
Proof.
  split; [vm_compute; reflexivity |].
  intros old new. split; split.
  - intros (l & Hl & Hs).
    destruct (differences old new) as [D|e] eqn:Hd.
    + by destruct (differences_Ok_tokens _ _ _ Hd l Hl).
    + by apply differences_Raise in Hd as [-> _].
  - intros Hd. by apply differences_Raise in Hd as [_ ?].
  - apply differences_total.
  - intros [D Hd]. by apply differences_Ok_tokens with D.
Qed.

(** C7.  Let [name] occur exactly once in A, as the entry "name p1", and
    exactly once in B, as the entry "name p2", and let every entry found
    in one set only have a token.  Then the differ returns a name set,
    and [name] belongs to it when p1 ≠ p2 and does not when p1 = p2. *)
Theorem differences_changed_path (A B : gset string) (name p1 p2 : string) :
  attribute_name name →
  entry name p1 ∈ A →
  entry name p2 ∈ B →
  (∀ l, l ∈ A → first_token l = Ok name → l = entry name p1) →
  (∀ l, l ∈ B → first_token l = Ok name → l = entry name p2) →
  (∀ l, l ∈ Py.symmetric_difference A B → Py.split l ≠ []) →
  ∃ D, differences A B = Ok D
       ∧ (p1 ≠ p2 → name ∈ D)
       ∧ (p1 = p2 → name ∉ D).
Proof.
  intros Hname HA HB HuA HuB Htok.
  destruct (differences_total A B Htok) as [D HD].
  exists D. split; [done |].
  pose proof (differences_Ok_elem A B D HD name) as Hin.
  split.
  - intros Hne. apply Hin. exists (entry name p1).
    split; [| by apply first_token_entry].
    apply elem_of_symmetric_difference. left. split; [done |].
    intros HB1. apply Hne, (entry_inj name).
    apply HuB; [done | by apply first_token_entry].
  - intros <- HD1. apply Hin in HD1 as (l & Hl & Hf).
    apply elem_of_symmetric_difference in Hl as [[Hl Hn]|[Hl Hn]].
    + apply Hn. by rewrite (HuA l Hl Hf).
    + apply Hn. by rewrite (HuB l Hl Hf).
Qed.

Lemma differences_changed_path_witness :
  ∃ D, differences {[ "foo /nix/a"; "bar /nix/b" ]}
                   {[ "foo /nix/a"; "bar /nix/c"; "baz /nix/d" ]} = Ok D
       ∧ ("/nix/b" ≠ "/nix/c" → "bar" ∈ D)
       ∧ ("/nix/b" = "/nix/c" → "bar" ∉ D).
Proof.
  apply (differences_changed_path _ _ "bar" "/nix/b" "/nix/c").
  - split; [discriminate | reflexivity].
  - vm_compute. reflexivity.
  - vm_compute. reflexivity.
  - intros l Hl. set_unfold in Hl.
    destruct Hl as [->| ->]; vm_compute; [discriminate | reflexivity].
  - intros l Hl. set_unfold in Hl.
    destruct Hl as [[->| ->]| ->]; vm_compute;
      [discriminate | reflexivity | discriminate].
  - intros l Hl. apply elem_of_symmetric_difference in Hl. set_unfold in Hl.
    destruct Hl as [[[->| ->] _]|[[[->| ->]| ->] _]];
      vm_compute; discriminate.
Defined.

(** ** The parser *)

Lemma split_sep_trailing (sep : ascii) (s cur : string) :
  "" ∈ Py.split_sep sep cur (s +:+ String sep "").
Proof.
  revert cur. induction s as [|c s IH]; intros cur.
  - rewrite append_empty_l. cbn [Py.split_sep].
    rewrite Ascii.eqb_refl. set_solver.
  - rewrite append_cons. cbn [Py.split_sep].
    destruct (Ascii.eqb c sep); [right |]; apply IH.
Qed.

(** C3.  On every evaluator output that ends with a newline the parser
    returns a set that contains the empty string: the text after the last
    newline is kept as an entry.  So for the single line "foo /nix/a" the
    result has two elements, and [packages] on a tree with the two
    attributes foo and bar returns three. *)
Theorem packages_keeps_trailing_empty_line :
  (∀ output : string, "" ∈ parse_packages (output +:+ nl))
  ∧ parse_packages ("foo /nix/a" +:+ nl) = {[ "foo /nix/a"; "" ]}
  ∧ fst (packages (demo_env no_failure) "/home/u/.nox/nixpkgs"
                  (set_mirror_head "mmm" world0))
    = Ok {[ "foo /nix/a"; "bar /nix/b"; "" ]}.
Proof.
  split; [| split; vm_compute; reflexivity].
  intros output. unfold parse_packages, Py.split_on, nl.
  apply elem_of_list_to_set, split_sep_trailing.
Qed.

(** ** Running computations *)

Lemma bind_run {A B} (m : M A) (k : A → M B) (w : world) :
  (m ≫= k) w = match m w with
               | (Ok a, w') => k a w'
               | (Raise e, w') => (Raise e, w')
               end.
Proof. reflexivity. Qed.

Lemma bind_Ok {A B} (m : M A) (k : A → M B) (w w' : world) (a : A) :
  m w = (Ok a, w') → (m ≫= k) w = k a w'.
Proof. intros H. by rewrite bind_run, H. Qed.

(** Updates of a world given by its fields; rewriting with these from the
    inside out keeps the terms small. *)
Lemma log_World ev tr c h nd me n :
  log ev (World tr c h nd me n) = World (tr ++ [ev]) c h nd me n.
Proof. reflexivity. Qed.

Lemma set_cache_World c' tr c h nd me n :
  set_cache c' (World tr c h nd me n) = World tr c' h nd me n.
Proof. reflexivity. Qed.

Lemma set_mirror_head_World sha tr c h nd me n :
  set_mirror_head sha (World tr c h nd me n) = World tr c (Some sha) nd me n.
Proof. reflexivity. Qed.

Lemma set_nox_dir_exists_World tr c h nd me n :
  set_nox_dir_exists (World tr c h nd me n) = World tr c h true me n.
Proof. reflexivity. Qed.

Lemma set_mirror_exists_World tr c h nd me n :
  set_mirror_exists (World tr c h nd me n) = World tr c h nd true n.
Proof. reflexivity. Qed.

Lemma bump_tmp_World tr c h nd me n :
  bump_tmp (World tr c h nd me n) = World tr c h nd me (S n).
Proof. reflexivity. Qed.

Create Rewrite HintDb world.
#[global] Hint Rewrite log_World set_cache_World set_mirror_head_World
  set_nox_dir_exists_World set_mirror_exists_World bump_tmp_World : world.

Ltac norm_world :=
  cbn [trace cache mirror_head nox_dir_exists mirror_exists tmp_count];
  autorewrite with world; rewrite <- ?app_assoc;
  cbn [app trace cache mirror_head nox_dir_exists mirror_exists tmp_count].

Section Runs.
Context (E : Env).

Lemma effect_checkout (sha : string) (w : world) :
  effect E ["git"; "checkout"; sha] (Some (nixpkgs_path E)) w
  = set_mirror_head sha w.
Proof. unfold effect. by rewrite bool_decide_eq_true_2. Qed.

Lemma effect_init (w : world) :
  effect E ["git"; "init"; nixpkgs_path E] None w = set_mirror_exists w.
Proof.
  unfold effect. rewrite bool_decide_eq_false_2 by (by intros (_ & ? & _)).
  by rewrite bool_decide_eq_true_2.
Qed.

Lemma effect_long (a b c d : string) (l : list string) (cwd : option string)
    (w : world) :
  effect E (a :: b :: c :: d :: l) cwd w = w.
Proof. reflexivity. Qed.

Lemma effect_other (prog a b : string) (cwd : option string) (w : world) :
  prog ≠ "git" → effect E [prog; a; b] cwd w = w.
Proof.
  intros H. unfold effect.
  by rewrite !bool_decide_eq_false_2 by (by intros (? & _)).
Qed.

Lemma effect_build_command (attrs : list string) (path : string)
    (cwd : option string) (w : world) :
  attrs ≠ [] → effect E (build_command attrs path) cwd w = w.
Proof.
  destruct attrs as [|a attrs]; [done |]. intros _.
  unfold build_command. simpl.
  destruct (flat_map _ attrs ++ [path]) eqn:Hl; [|done].
  by apply app_nil in Hl as [_ ?].
Qed.

Lemma check_call_run (argv : list string) (cwd : option string) (w : world) :
  check_call E argv cwd w
  = if (returncode E (trace w) argv cwd =? 0)%Z
    then (Ok tt, effect E argv cwd (log (Call argv cwd) w))
    else (Raise (CalledProcessError (returncode E (trace w) argv cwd) argv),
          log (Call argv cwd) w).
Proof. reflexivity. Qed.

Lemma check_call_ok (argv : list string) (cwd : option string) (w : world) :
  all_succeed E →
  check_call E argv cwd w = (Ok tt, effect E argv cwd (log (Call argv cwd) w)).
Proof. intros H. by rewrite check_call_run, H. Qed.

Lemma check_output_ok (argv : list string) (cwd : option string) (w : world) :
  all_succeed E →
  check_output E argv cwd w
  = (Ok (stdout E (mirror_head w) argv cwd),
     effect E argv cwd (log (Call argv cwd) w)).
Proof. intros H. unfold check_output. by rewrite H. Qed.

(** C5.  [build_in_path] on an empty attribute list returns normally and
    changes the world by one event only, the message "Nothing changed":
    no command is run and no directory is created, whatever the path. *)
Theorem build_nothing_changed (path : string) (w : world) :
  build_in_path E [] path w
  = (Ok tt, World (trace w ++ [Echo "Nothing changed"]) (cache w)
                  (mirror_head w) (nox_dir_exists w) (mirror_exists w)
                  (tmp_count w)).
Proof. reflexivity. Qed.

Lemma fetch_from_cwd_run (w : world) :
  let cwd := Some (nixpkgs_path E) in
  let add := local_add_command E in
  let w1 := log (Call add cwd) w in
  let rc := returncode E (trace w1) local_remove_command cwd in
  fetch_from_cwd E w
  = if (rc =? 0)%Z
    then (Ok tt, log (Call local_remove_command cwd) w1)
    else (Raise (CalledProcessError rc local_remove_command),
          log (Call local_remove_command cwd) w1).
Proof.
  intros cwd add w1 rc. subst cwd add w1 rc.
  unfold fetch_from_cwd, try_finally, try_except, pass, ret.
  rewrite check_call_run.
  destruct (returncode E (trace w) _ _ =? 0)%Z;
    unfold local_add_command; rewrite ?effect_long, check_call_run;
    destruct (returncode E _ local_remove_command _ =? 0)%Z; reflexivity.
Qed.

Lemma get_nixpkgs_run (w : world) :
  (∀ h argv cwd, argv ≠ local_add_command E → returncode E h argv cwd = 0%Z) →
  ∃ evs,
    get_nixpkgs E w
    = (Ok (nixpkgs_path E),
       World (trace w ++ evs) (cache w) (mirror_head w) true true
             (tmp_count w))
    ∧ checkouts evs = []
    ∧ (cwd_is_repo E = true →
       ∃ pre post,
         evs = pre ++ [Call (local_add_command E) (Some (nixpkgs_path E));
                       Call local_remove_command (Some (nixpkgs_path E))]
                   ++ post).
Proof.
  intros Hrc. destruct w as [tr c h nd me n].
  unfold get_nixpkgs.
  destruct nd, me, (cwd_is_repo E) eqn:Hrepo.
  all: repeat (rewrite ?bind_run, ?check_call_run, ?fetch_from_cwd_run,
                 ?effect_init, ?Hrc by discriminate; simpl).
  all: rewrite ?effect_long; unfold ret; norm_world.
  all: eexists; split; [reflexivity |]; split; [reflexivity |].
  all: intros Htrue; try discriminate Htrue.
  all: first [ by eexists [], _ | by eexists [_], _ | by eexists [_; _], _
             | by eexists [_; _; _], _ | by eexists [_; _; _; _], _ ].
Qed.

Lemma get_nixpkgs_ok (w : world) :
  all_succeed E →
  ∃ evs,
    get_nixpkgs E w
    = (Ok (nixpkgs_path E),
       World (trace w ++ evs) (cache w) (mirror_head w) true true
             (tmp_count w))
    ∧ checkouts evs = [].
Proof.
  intros Hall. destruct (get_nixpkgs_run w) as (evs & Hrun & Hco & _).
  - intros h argv cwd _. apply Hall.
  - eauto.
Qed.

Lemma checkouts_app (evs1 evs2 : list event) :
  checkouts (evs1 ++ evs2) = checkouts evs1 ++ checkouts evs2.
Proof. apply omap_app. Qed.

Lemma checkouts_checkout (sha : string) (cwd : option string) :
  checkouts [Call ["git"; "checkout"; sha] cwd] = [sha].
Proof. reflexivity. Qed.

Lemma packages_for_sha_body_ok (sha : string) (w : world) :
  all_succeed E →
  ∃ evs,
    packages_for_sha_body E sha w
    = (Ok (revision_packages E sha),
       World (trace w ++ evs) (cache w) (Some sha) true true (tmp_count w))
    ∧ checkouts evs = [sha].
Proof.
  intros Hall. destruct (get_nixpkgs_ok w Hall) as (evs & Hrun & Hco).
  unfold packages_for_sha_body. rewrite (bind_Ok _ _ _ _ _ Hrun).
  rewrite bind_run, check_call_ok, effect_checkout by done.
  unfold packages. rewrite bind_run, check_output_ok by done.
  unfold nix_env_command at 2 3. rewrite effect_long.
  unfold ret, log, set_mirror_head, revision_packages. simpl.
  rewrite <- !app_assoc. eexists. split; [reflexivity |].
  rewrite !checkouts_app, Hco. reflexivity.
Qed.

Lemma packages_for_sha_ok (sha : string) (w : world) :
  all_succeed E →
  cache_sound E w →
  ∃ w' evs,
    packages_for_sha E sha w = (Ok (revision_packages E sha), w')
    ∧ cache_sound E w'
    ∧ trace w' = trace w ++ evs
    ∧ ∀ r, r ∈ checkouts evs → r = sha.
Proof.
  intros Hall Hsound. unfold packages_for_sha, cache_on_arguments.
  destruct (cache w !! sha) as [v|] eqn:Hc.
  - exists w, []. rewrite (Hsound _ _ Hc), app_nil_r.
    repeat split; [done |]. intros r Hr. by apply elem_of_nil in Hr.
  - destruct (packages_for_sha_body_ok sha w Hall) as (evs & -> & Hco).
    eexists _, evs. split; [reflexivity |]. repeat split.
    + intros sha' s. unfold set_cache. simpl.
      destruct (decide (sha = sha')) as [<-|Hne].
      * rewrite lookup_insert_eq. by intros [= <-].
      * rewrite lookup_insert_ne by done. apply Hsound.
    + rewrite Hco. intros r Hr. by apply list_elem_of_singleton in Hr.
Qed.

Lemma build_in_path_ok (attrs : list string) (path : string) (w : world) :
  all_succeed E →
  ∃ evs n,
    build_in_path E attrs path w
    = (Ok tt, World (trace w ++ evs) (cache w) (mirror_head w)
                    (nox_dir_exists w) (mirror_exists w) n)
    ∧ checkouts evs = []
    ∧ (attrs ≠ [] →
       ∃ d, Call (build_command attrs (resolve E path)) (Some d) ∈ evs).
Proof.
  intros Hall. destruct attrs as [|a attrs].
  - exists [Echo "Nothing changed"], (tmp_count w). by repeat split.
  - unfold build_in_path, mkdtemp, echo, try_except.
    repeat (rewrite ?bind_run, ?check_call_ok by done; simpl).
    rewrite effect_build_command by done.
    rewrite effect_other by done.
    unfold log, bump_tmp. simpl. rewrite <- !app_assoc. simpl.
    eexists _, _. split; [reflexivity |]. split.
    + unfold build_command. simpl.
      destruct (flat_map _ attrs ++ [resolve E path]) as [|? ?] eqn:Hl;
        [| reflexivity].
      by apply app_nil in Hl as [_ ?].
    + intros _. eexists. right. right. left.
Qed.

Lemma build_in_path_ok_events (attrs : list string) (path : string)
    (w : world) :
  all_succeed E →
  attrs ≠ [] →
  let d := mkdtemp_path E "nox-review-" (tmp_count w) in
  build_in_path E attrs path w
  = (Ok tt,
     World (trace w
            ++ [Mkdtemp d;
                Echo ("Building in " +:+ bold d +:+ ": "
                      +:+ bold (Py.join " " attrs));
                Call (build_command attrs (resolve E path)) (Some d);
                Echo ("Result in " +:+ bold d);
                Call ["ls"; "-l"; d] None])
           (cache w) (mirror_head w) (nox_dir_exists w) (mirror_exists w)
           (S (tmp_count w))).
Proof.
  intros Hall Hne d. subst d. destruct w as [tr c h nd me n].
  destruct attrs as [|a attrs]; [done |].
  unfold build_in_path, mkdtemp, echo, try_except.
  rewrite !bind_run. norm_world. rewrite check_call_ok by done.
  rewrite effect_build_command by done. norm_world.
  rewrite bind_run. norm_world. rewrite check_call_ok by done.
  rewrite effect_other by done. by norm_world.
Qed.

Lemma build_sha_run (attrs : list string) (sha : string) (w : world) :
  all_succeed E →
  ∃ evs,
    build_sha E attrs sha w
    = build_in_path E attrs (nixpkgs_path E)
        (World (trace w ++ evs
                ++ [Call ["git"; "checkout"; sha] (Some (nixpkgs_path E))])
               (cache w) (Some sha) true true (tmp_count w))
    ∧ checkouts evs = [].
Proof.
  intros Hall. destruct (get_nixpkgs_ok w Hall) as (evs & Hrun & Hco).
  unfold build_sha. rewrite (bind_Ok _ _ _ _ _ Hrun).
  rewrite bind_run, check_call_ok, effect_checkout by done.
  unfold log, set_mirror_head. simpl. rewrite <- !app_assoc.
  by exists evs.
Qed.

End Runs.

Lemma differences_comm (A B : gset string) :
  differences A B = differences B A.
Proof.
  unfold differences. by rewrite (symmetric_difference_comm A B).
Qed.

(** C2.  Reviewing a pull request whose head is H, whose base is B and
    whose merge base (as git reports it in the mirror) is M: when the
    collaborators succeed and D is the diff of the attribute sets of M
    and H, the run ends as the build of exactly the names of D, started
    right after H has been checked out in the mirror; it returns
    normally with H still checked out, and before the build no revision
    other than H and M has been checked out (so B is not, unless it is
    one of them).  What the run adds to the trace after that checkout is,
    when D is not empty, a fresh directory, the build command on the
    names of D run in it, and its listing; when D is empty, the message
    "Nothing changed" alone. *)
Theorem review_pr_diffs_merge_base (E : Env) (pr : Z) (p : payload)
    (w : world) (D : gset string) :
  all_succeed E →
  cache_sound E w →
  pulls E pr = Ok p →
  let H := head_sha p in
  let B := base_sha p in
  let M := Py.strip (stdout E (mirror_head w) ["git"; "merge-base"; H; B]
                            (Some (nixpkgs_path E))) in
  differences (revision_packages E M) (revision_packages E H) = Ok D →
  ∃ w2 evs,
    review_pr E pr w = build_in_path E (elements D) (nixpkgs_path E) w2
    ∧ mirror_head w2 = Some H
    ∧ trace w2
      = trace w ++ evs
        ++ [Call ["git"; "checkout"; H] (Some (nixpkgs_path E))]
    ∧ (∀ r, r ∈ checkouts evs → r = H ∨ r = M)
    ∧ fst (review_pr E pr w) = Ok tt
    ∧ mirror_head (snd (review_pr E pr w)) = Some H
    ∧ ∃ built,
        trace (snd (review_pr E pr w)) = trace w2 ++ built
        ∧ (D = ∅ → built = [Echo "Nothing changed"])
        ∧ (D ≠ ∅ →
           ∃ d msg1 msg2,
             built
             = [Mkdtemp d;
                Echo msg1;
                Call (build_command (elements D) (resolve E (nixpkgs_path E)))
                     (Some d);
                Echo msg2;
                Call ["ls"; "-l"; d] None]).
Proof.
  intros Hall Hsound Hp H B M HD.
  assert (∃ w2 evs,
    review_pr E pr w = build_in_path E (elements D) (nixpkgs_path E) w2
    ∧ mirror_head w2 = Some H
    ∧ trace w2
      = trace w ++ evs
        ++ [Call ["git"; "checkout"; H] (Some (nixpkgs_path E))]
    ∧ (∀ r, r ∈ checkouts evs → r = H ∨ r = M))
    as (w2 & evs & Heq & Hhead & Htr & Hco).
  { unfold review_pr.
    rewrite bind_run. unfold http_get_json. rewrite Hp.
    rewrite bind_run. unfold echo at 1.
    set (w1 := log (Echo _) (log (HttpGet _) w)).
    destruct (get_nixpkgs_ok E w1 Hall) as (evs1 & Hrun1 & Hco1).
    rewrite (bind_Ok _ _ _ _ _ Hrun1).
    rewrite bind_run, check_output_ok, effect_long by done.
    cbn [mirror_head]. change (mirror_head w1) with (mirror_head w).
    fold H B M.
    set (w2 := log (Call _ _) _).
    assert (cache_sound E w2) as Hsound2 by exact Hsound.
    destruct (packages_for_sha_ok E H w2 Hall Hsound2)
      as (w3 & evs2 & Hrun2 & Hsound3 & Htr2 & Hco2).
    rewrite (bind_Ok _ _ _ _ _ Hrun2).
    destruct (packages_for_sha_ok E M w3 Hall Hsound3)
      as (w4 & evs3 & Hrun3 & Hsound4 & Htr3 & Hco3).
    rewrite (bind_Ok _ _ _ _ _ Hrun3).
    rewrite bind_run. unfold lift. rewrite differences_comm, HD.
    destruct (build_sha_run E (elements D) H w4 Hall)
      as (evs4 & Hrun4 & Hco4).
    rewrite Hrun4.
    eexists _, ([HttpGet (pull_url pr);
                 Echo ("Reviewing PR " +:+ bold (pretty pr) +:+ " : "
                       +:+ bold (title p))]
                ++ evs1 ++ [Call ["git"; "merge-base"; H; B]
                                 (Some (nixpkgs_path E))]
                ++ evs2 ++ evs3 ++ evs4).
    split; [reflexivity |]. split; [reflexivity |]. split.
    - cbn [trace]. rewrite Htr3, Htr2. unfold w2, w1, log. cbn [trace].
      by rewrite <- !app_assoc.
    - intros r. rewrite !checkouts_app, Hco1, Hco4.
      change (checkouts [HttpGet _; Echo _]) with (@nil string).
      change (checkouts [Call ["git"; "merge-base"; H; B] _])
        with (@nil string).
      rewrite !app_nil_l, app_nil_r. intros [Hr|Hr]%elem_of_app; auto. }
  exists w2, evs. rewrite Heq.
  do 4 (split; [done |]).
  destruct (elements D) as [|a names] eqn:Hel.
  - rewrite build_nothing_changed. cbn [fst snd mirror_head trace].
    do 2 (split; [done |]). exists [Echo "Nothing changed"].
    split; [done |]. split; [done |].
    intros Hne. destruct Hne. by apply leibniz_equiv, elements_empty_iff.
  - rewrite build_in_path_ok_events by done.
    cbn [fst snd mirror_head trace].
    do 2 (split; [done |]). eexists. split; [reflexivity |]. split.
    + intros ->. by rewrite elements_empty in Hel.
    + intros _. by eexists _, _, _.
Qed.

Lemma review_pr_diffs_merge_base_witness :
  let E := demo_env no_failure in
  ∃ w2 evs,
    review_pr E 123 world0
    = build_in_path E (elements ({[ "bar"; "baz" ]} : gset string))
                    (nixpkgs_path E) w2
    ∧ mirror_head w2 = Some "hhh"
    ∧ trace w2
      = trace world0 ++ evs
        ++ [Call ["git"; "checkout"; "hhh"] (Some (nixpkgs_path E))]
    ∧ (∀ r, r ∈ checkouts evs → r = "hhh" ∨ r = "mmm")
    ∧ fst (review_pr E 123 world0) = Ok tt
    ∧ mirror_head (snd (review_pr E 123 world0)) = Some "hhh"
    ∧ ∃ d msg1 msg2,
        trace (snd (review_pr E 123 world0))
        = trace w2
          ++ [Mkdtemp d;
              Echo msg1;
              Call (build_command
                      (elements ({[ "bar"; "baz" ]} : gset string))
                      (resolve E (nixpkgs_path E)))
                   (Some d);
              Echo msg2;
              Call ["ls"; "-l"; d] None].
Proof.
  intros E.
  destruct (review_pr_diffs_merge_base E 123
              (Payload "bar: 1.0 -> 1.1" "hhh" "bbb") world0
              {[ "bar"; "baz" ]})
    as (w2 & evs & Heq & Hhead & Htr & Hco & Hok & Hfinal
        & built & Hbuilt & _ & Hbuild).
  - intros h argv cwd. reflexivity.
  - intros sha s Hs. cbn [world0 cache] in Hs.
    rewrite lookup_empty in Hs. discriminate.
  - reflexivity.
  - vm_compute. reflexivity.
  - exists w2, evs. do 6 (split; [assumption |]).
    destruct Hbuild as (d & msg1 & msg2 & ->).
    + intros Hempty.
      assert ("bar" ∈ (∅ : gset string)) as Hin
        by (rewrite <- Hempty; set_solver).
      by apply not_elem_of_empty in Hin.
    + by exists d, msg1, msg2.
Defined.

(** C6.  Once a lookup of a revision identifier has returned a set, the
    set is in the cache under that identifier, and a lookup of the same
    identifier — at once, or in any later world that still holds the
    entry — returns the same set and leaves the world as it is: no
    event is added to the trace, so neither the checkout nor the
    evaluator runs again. *)
Theorem packages_for_sha_cached (E : Env) (sha : string) (w w1 : world)
    (s : gset string) :
  packages_for_sha E sha w = (Ok s, w1) →
  cache w1 !! sha = Some s
  ∧ packages_for_sha E sha w1 = (Ok s, w1)
  ∧ ∀ w2, cache w2 !! sha = Some s → packages_for_sha E sha w2 = (Ok s, w2).
Proof.
  intros Hrun.
  assert (∀ w2, cache w2 !! sha = Some s →
                packages_for_sha E sha w2 = (Ok s, w2)) as Hhit.
  { intros w2 Hc. unfold packages_for_sha, cache_on_arguments.
    by rewrite Hc. }
  assert (cache w1 !! sha = Some s) as Hc; [| by auto].
  unfold packages_for_sha, cache_on_arguments in Hrun.
  destruct (cache w !! sha) as [v|] eqn:Hw.
  - by injection Hrun as -> ->.
  - destruct (packages_for_sha_body E sha w) as [[v|e] w'];
      [| discriminate].
    injection Hrun as -> <-. destruct w'. apply lookup_insert_eq.
Qed.

Lemma packages_for_sha_cached_witness :
  let E := demo_env no_failure in
  ∃ s w1,
    packages_for_sha E "hhh" world0 = (Ok s, w1)
    ∧ checkouts (trace w1) = ["hhh"]
    ∧ cache w1 !! "hhh" = Some s
    ∧ packages_for_sha E "hhh" w1 = (Ok s, w1)
    ∧ ∀ w2, cache w2 !! "hhh" = Some s →
            packages_for_sha E "hhh" w2 = (Ok s, w2).
Proof.
  intros E.
  destruct (packages_for_sha E "hhh" world0) as [r w1] eqn:Hrun.
  assert (r = Ok (revision_packages E "hhh")
          ∧ checkouts (trace w1) = ["hhh"]) as [-> Hco].
  { vm_compute in Hrun. injection Hrun as <- <-.
    split; vm_compute; reflexivity. }
  eexists _, w1. split; [reflexivity |]. split; [exact Hco |].
  exact (packages_for_sha_cached E "hhh" world0 w1 _ Hrun).
Defined.

(** C4 (amended).  On a non-empty attribute list, when the build command
    exits with a non-zero status, the failing command is reported in red,
    the result directory is announced and listed all the same, and the
    outcome of the run is that of the listing step alone: the exit status
    is 0 as soon as the listing succeeds. *)
Theorem build_failure_reported (E : Env) (attrs : list string)
    (path : string) (w : world) :
  attrs ≠ [] →
  let d := mkdtemp_path E "nox-review-" (tmp_count w) in
  let command := build_command attrs (resolve E path) in
  let started :=
    trace w ++ [Mkdtemp d;
                Echo ("Building in " +:+ bold d +:+ ": "
                      +:+ bold (Py.join " " attrs))] in
  let reported :=
    started ++ [Call command (Some d);
                Secho (failure_message command) "red";
                Echo ("Result in " +:+ bold d)] in
  let ls := ["ls"; "-l"; d] in
  let rc := returncode E reported ls None in
  returncode E started command (Some d) ≠ 0%Z →
  trace (snd (build_in_path E attrs path w)) = reported ++ [Call ls None]
  ∧ fst (build_in_path E attrs path w)
    = (if (rc =? 0)%Z then Ok tt else Raise (CalledProcessError rc ls))
  ∧ exit_status (fst (build_in_path E attrs path w))
    = (if (rc =? 0)%Z then 0 else 1)%Z.
Proof.
  intros Hne d command started reported ls rc Hfail.
  apply Z.eqb_neq in Hfail.
  assert (build_in_path E attrs path w
          = if (rc =? 0)%Z
            then (Ok tt, World (reported ++ [Call ls None]) (cache w)
                               (mirror_head w) (nox_dir_exists w)
                               (mirror_exists w) (S (tmp_count w)))
            else (Raise (CalledProcessError rc ls),
                  World (reported ++ [Call ls None]) (cache w)
                        (mirror_head w) (nox_dir_exists w)
                        (mirror_exists w) (S (tmp_count w)))) as ->.
  { subst rc reported started command ls d.
    destruct w as [tr c h nd me n]. cbn [trace tmp_count] in *.
    destruct attrs as [|a attrs]; [done |].
    unfold build_in_path, mkdtemp, echo, secho, try_except.
    rewrite !bind_run. norm_world. rewrite check_call_run.
    norm_world. rewrite Hfail. norm_world.
    rewrite bind_run. norm_world. rewrite check_call_run. norm_world.
    rewrite effect_other by done. norm_world.
    by destruct (returncode E _ _ None =? 0)%Z. }
  by destruct (rc =? 0)%Z.
Qed.

Lemma build_failure_reported_witness :
  let E := demo_env build_fails in
  let r := build_in_path E ["hello"] "." world0 in
  Secho (failure_message ["nix-build"; "-A"; "hello"; "/src/nixpkgs"]) "red"
    ∈ trace (snd r)
  ∧ last (trace (snd r)) = Some (Call ["ls"; "-l"; "/tmp/nox-review-0"] None)
  ∧ fst r = Ok tt
  ∧ exit_status (fst r) = 0%Z.
Proof.
  intros E r.
  destruct (build_failure_reported E ["hello"] "." world0)
    as (Htr & Hr & Hx).
  - discriminate.
  - vm_compute. discriminate.
  - subst r. split; [| split; [| split]].
    + rewrite Htr. apply elem_of_app. left. apply elem_of_app. right.
      right. left.
    + rewrite Htr. apply last_snoc.
    + rewrite Hr. reflexivity.
    + rewrite Hx. reflexivity.
Defined.

(** C4 (as stated) fails: with a build command that exits with status 1
    and a listing that succeeds, the body returns normally and the exit
    status of the run is 0. *)
Lemma build_failure_exit_status_zero :
  let E := demo_env build_fails in
  let r := build_in_path E ["hello"] "." world0 in
  Call ["nix-build"; "-A"; "hello"; "/src/nixpkgs"]
       (Some "/tmp/nox-review-0") ∈ trace (snd r)
  ∧ (∀ h cwd,
       returncode E h ["nix-build"; "-A"; "hello"; "/src/nixpkgs"] cwd = 1%Z)
  ∧ fst r = Ok tt
  ∧ exit_status (fst r) = 0%Z.
Proof.
  intros E r. split; [| by split].
  vm_compute. right. right. left.
Qed.

(** C9 (amended).  The command that removes the temporary remote runs
    right after the add-and-fetch command on both of its exit paths, and
    the outcome of the block is that of the removal alone, so a failure
    of the add-and-fetch is never fatal: when the current directory is a
    repository and every other command succeeds, the mirror setup
    returns the mirror path whatever the add-and-fetch did. *)
Theorem local_remote_always_removed (E : Env) :
  (∀ w,
     let cwd := Some (nixpkgs_path E) in
     let added := trace w ++ [Call (local_add_command E) cwd] in
     let rc := returncode E added local_remove_command cwd in
     trace (snd (fetch_from_cwd E w))
     = added ++ [Call local_remove_command cwd]
     ∧ fst (fetch_from_cwd E w)
       = (if (rc =? 0)%Z then Ok tt
          else Raise (CalledProcessError rc local_remove_command)))
  ∧ (cwd_is_repo E = true →
     (∀ h argv cwd,
        argv ≠ local_add_command E → returncode E h argv cwd = 0%Z) →
     ∀ w, ∃ w' pre post,
       get_nixpkgs E w = (Ok (nixpkgs_path E), w')
       ∧ trace w'
         = trace w ++ pre
           ++ [Call (local_add_command E) (Some (nixpkgs_path E));
               Call local_remove_command (Some (nixpkgs_path E))]
           ++ post).
Proof.
  split.
  - intros w cwd added rc. rewrite fetch_from_cwd_run.
    subst rc added cwd. destruct w as [tr c h nd me n]. norm_world.
    cbn [trace]. destruct (returncode E _ _ _ =? 0)%Z; cbn [fst snd trace].
    all: by rewrite <- ?app_assoc.
  - intros Hrepo Hrc w.
    destruct (get_nixpkgs_run E w Hrc) as (evs & Hrun & _ & Hin).
    destruct (Hin Hrepo) as (pre & post & ->).
    by eexists _, pre, post.
Qed.

Lemma local_remote_always_removed_witness :
  let E := demo_env local_add_fails in
  (∀ h cwd, returncode E h (local_add_command E) cwd = 1%Z)
  ∧ ∃ w' pre post,
      get_nixpkgs E world0 = (Ok (nixpkgs_path E), w')
      ∧ trace w'
        = trace world0 ++ pre
          ++ [Call (local_add_command E) (Some (nixpkgs_path E));
              Call local_remove_command (Some (nixpkgs_path E))]
          ++ post.
Proof.
  intros E. split; [reflexivity |].
  apply (proj2 (local_remote_always_removed E)).
  - reflexivity.
  - intros h argv cwd Hne. cbn. unfold local_add_fails.
    by rewrite bool_decide_eq_false_2.
Defined.

(** C9 (as stated) fails: when the add-and-fetch and the removal both
    exit with a non-zero status, the error of the removal is not
    swallowed; the mirror setup raises and the run ends with a non-zero
    exit status. *)
Lemma local_remote_failure_fatal :
  let E := demo_env local_remote_fails in
  cwd_is_repo E = true
  ∧ fst (get_nixpkgs E world0)
    = Raise (CalledProcessError 2 ["git"; "remote"; "remove"; "local"])
  ∧ exit_status (fst (review_pr E 123 world0)) = 1%Z.
Proof. repeat split; vm_compute; reflexivity. Qed.

(** * Further properties *)

(** ** Tokens *)

Lemma no_space_app (s t : string) :
  no_space (s +:+ t) = no_space s && no_space t.
Proof.
  induction s as [|c s IH]; [done |].
  rewrite append_cons. cbn [no_space]. rewrite IH. by rewrite andb_assoc.
Qed.

Lemma split_ws_leading (lead : string) :
  all_space lead = true →
  ∀ s, Py.split_ws "" (lead +:+ s) = Py.split_ws "" s.
Proof.
  induction lead as [|c lead IH]; intros Hlead s; [done |].
  cbn [all_space] in Hlead. apply andb_prop in Hlead as [Hc Hlead].
  rewrite append_cons. cbn [Py.split_ws]. rewrite Hc. cbn [Py.flush].
  by apply IH.
Qed.

Lemma split_ws_nil (s cur : string) :
  Py.split_ws cur s = [] ↔ cur = "" ∧ all_space s = true.
Proof.
  revert cur. induction s as [|c s IH]; intros cur; cbn [Py.split_ws all_space].
  - destruct cur; cbn; split; try done. by intros [? _].
  - destruct (Py.isspace c) eqn:Hc; cbn [andb].
    + destruct cur; cbn [Py.flush].
      * rewrite IH. naive_solver.
      * split; [done | by intros [? _]].
    + rewrite IH. unfold Py.push. split; [| by intros [_ ?]].
      intros [Hcur _]. by destruct cur.
Qed.

Lemma split_ws_tokens (s cur : string) :
  no_space cur = true → Forall attribute_name (Py.split_ws cur s).
Proof.
  revert cur. induction s as [|c s IH]; intros cur Hcur; cbn [Py.split_ws].
  - destruct cur; cbn [Py.flush]; [constructor |].
    constructor; [by split | constructor].
  - destruct (Py.isspace c) eqn:Hc.
    + destruct cur; cbn [Py.flush]; [by apply IH |].
      constructor; [by split | by apply IH].
    + apply IH. unfold Py.push. rewrite no_space_app, Hcur.
      cbn [no_space]. by rewrite Hc.
Qed.

(** X1.  [l.split()[0]] raises [IndexError] exactly on the lines made of
    whitespace only (the empty line among them); on every other line it
    returns a token. *)
Theorem first_token_blank (l : string) :
  (first_token l = Raise IndexError ↔ all_space l = true)
  ∧ ((∃ n, first_token l = Ok n) ↔ all_space l = false).
Proof.
  unfold first_token, Py.split.
  pose proof (split_ws_nil l "") as Hnil.
  destruct (Py.split_ws "" l) as [|t ts]; cbn.
  - assert (all_space l = true) as -> by by apply Hnil.
    split; [done |]. split; [by intros [? ?] | done].
  - assert (all_space l = false) as ->.
    { destruct (all_space l); [| done].
      by destruct Hnil as [_ Hnil]; discriminate Hnil. }
    split; [done |]. split; eauto.
Qed.

(** X2.  Whatever the line, the token [l.split()[0]] returns is not empty
    and contains no whitespace; so every name the differ returns is such
    a token. *)
Theorem differences_names_are_tokens (old new D : gset string) (n : string) :
  differences old new = Ok D → n ∈ D → attribute_name n.
Proof.
  intros HD Hn.
  apply (differences_Ok_elem _ _ _ HD) in Hn as (l & _ & Hl).
  unfold first_token, Py.split in Hl.
  pose proof (split_ws_tokens l "" eq_refl) as Htok.
  destruct (Py.split_ws "" l) as [|t ts]; [done |].
  injection Hl as <-. by apply Forall_cons in Htok as [? _].
Qed.

Lemma differences_names_are_tokens_witness :
  attribute_name "baz".
Proof.
  apply (differences_names_are_tokens
           {[ "foo /nix/a"; "bar /nix/b" ]}
           {[ "foo /nix/a"; "bar /nix/c"; "baz /nix/d" ]}
           {[ "bar"; "baz" ]}).
  - vm_compute. reflexivity.
  - vm_compute. reflexivity.
Defined.

(** X3.  Reading back an entry: for a line made of optional leading
    whitespace, a name, and then either nothing or one whitespace
    character followed by any further columns, the projection returns
    the name. *)
Theorem first_token_of_line (lead name rest : string) (c : ascii) :
  all_space lead = true →
  attribute_name name →
  Py.isspace c = true →
  first_token (lead +:+ name +:+ String c rest) = Ok name
  ∧ first_token (lead +:+ name) = Ok name.
Proof.
  intros Hlead [Hne Hsp] Hc. unfold first_token, Py.split.
  split.
  - rewrite split_ws_leading by done.
    rewrite split_ws_token by done. rewrite append_empty_l.
    cbn [Py.split_ws]. rewrite Hc. rewrite flush_cons by done. reflexivity.
  - rewrite split_ws_leading by done.
    rewrite <- (append_empty_r name) at 1.
    rewrite split_ws_token by done. rewrite append_empty_l.
    cbn [Py.split_ws]. rewrite flush_cons by done. reflexivity.
Qed.

Lemma first_token_of_line_witness :
  first_token ("  " +:+ "hello" +:+ String (ascii_of_nat 9) "/nix/x  1.0")
  = Ok "hello"
  ∧ first_token ("  " +:+ "hello") = Ok "hello".
Proof.
  apply (first_token_of_line "  " "hello" "/nix/x  1.0" (ascii_of_nat 9)).
  - reflexivity.
  - split; [discriminate | reflexivity].
  - reflexivity.
Defined.

(** X4.  The names of a build message can be read back: joining tokens
    with single spaces and splitting the result gives the tokens again,
    in the same order. *)
Theorem split_join_names (attrs : list string) :
  Forall attribute_name attrs → Py.split (Py.join " " attrs) = attrs.
Proof.
  unfold Py.split. induction attrs as [|a attrs IH]; intros Hall; [done |].
  apply Forall_cons in Hall as [[Hne Hsp] Hall].
  destruct attrs as [|b attrs].
  - cbn [Py.join]. rewrite <- (append_empty_r a) at 1.
    rewrite split_ws_token by done. rewrite append_empty_l.
    cbn [Py.split_ws]. by rewrite flush_cons.
  - change (Py.join " " (a :: b :: attrs))
      with (a +:+ " " +:+ Py.join " " (b :: attrs)).
    rewrite split_ws_token by done.
    rewrite append_empty_l, append_cons, append_empty_l.
    cbn [Py.split_ws]. change (Py.isspace " ") with true. cbn iota.
    rewrite flush_cons by done. by rewrite IH.
Qed.

Lemma split_join_names_witness :
  Py.split (Py.join " " ["bar"; "baz"; "hello"]) = ["bar"; "baz"; "hello"].
Proof.
  apply (split_join_names ["bar"; "baz"; "hello"]).
  repeat (apply Forall_cons; split; [split; [discriminate | reflexivity] |]).
  apply Forall_nil_2.
Defined.

(** ** More on the differ *)

(** X5.  Comparing a set with itself gives the empty name set, also when
    the set holds lines without a token: nothing is projected. *)
Theorem differences_self (A : gset string) : differences A A = Ok ∅.
Proof.
  unfold differences, Py.symmetric_difference.
  replace (A ∖ A ∪ A ∖ A) with (∅ : gset string) by set_solver.
  by rewrite elements_empty.
Qed.

(** X6.  When the differ returns, a name is in the result exactly when it
    is the first token of a line that is in the old set and not in the
    new one (removed or changed), or in the new set and not in the old
    one (added or changed). *)
Theorem differences_membership (old new D : gset string) (n : string) :
  differences old new = Ok D →
  (n ∈ D ↔
   ∃ l, first_token l = Ok n
        ∧ ((l ∈ old ∧ l ∉ new) ∨ (l ∈ new ∧ l ∉ old))).
Proof.
  intros HD. rewrite (differences_Ok_elem _ _ _ HD).
  split; intros (l & H1 & H2); exists l.
  - split; [done |]. by apply elem_of_symmetric_difference.
  - split; [| done]. by apply elem_of_symmetric_difference.
Qed.

Lemma differences_membership_witness :
  "baz" ∈ ({[ "bar"; "baz" ]} : gset string) ↔
  ∃ l, first_token l = Ok "baz"
       ∧ ((l ∈ ({[ "foo /nix/a"; "bar /nix/b" ]} : gset string)
           ∧ l ∉ ({[ "foo /nix/a"; "bar /nix/c"; "baz /nix/d" ]}
                  : gset string))
          ∨ (l ∈ ({[ "foo /nix/a"; "bar /nix/c"; "baz /nix/d" ]}
                  : gset string)
             ∧ l ∉ ({[ "foo /nix/a"; "bar /nix/b" ]} : gset string))).
Proof.
  apply (differences_membership
           {[ "foo /nix/a"; "bar /nix/b" ]}
           {[ "foo /nix/a"; "bar /nix/c"; "baz /nix/d" ]}
           {[ "bar"; "baz" ]} "baz").
  vm_compute. reflexivity.
Defined.

(** ** More on the parser *)

Lemma no_newline_app (s t : string) :
  no_newline (s +:+ t) = no_newline s && no_newline t.
Proof.
  induction s as [|c s IH]; [done |].
  rewrite append_cons. cbn [no_newline]. rewrite IH. by rewrite andb_assoc.
Qed.

Lemma split_sep_lines (s cur : string) :
  no_newline cur = true →
  Forall (λ l, no_newline l = true) (Py.split_sep newline cur s).
Proof.
  revert cur. induction s as [|c s IH]; intros cur Hcur; cbn [Py.split_sep].
  - by constructor.
  - destruct (Ascii.eqb c newline) eqn:Hc.
    + constructor; [done | by apply IH].
    + apply IH. unfold Py.push. rewrite no_newline_app, Hcur.
      cbn [no_newline]. by rewrite Hc.
Qed.

Lemma split_sep_cons (sep : ascii) (s cur : string) :
  ∃ x l, Py.split_sep sep cur s = x :: l.
Proof.
  revert cur. induction s as [|c s IH]; intros cur; cbn [Py.split_sep].
  - eauto.
  - destruct (Ascii.eqb c sep); eauto.
Qed.

Lemma join_split_sep (sep : ascii) (s cur : string) :
  Py.join (String sep "") (Py.split_sep sep cur s) = cur +:+ s.
Proof.
  revert cur. induction s as [|c s IH]; intros cur; cbn [Py.split_sep].
  - by rewrite append_empty_r.
  - destruct (Ascii.eqb c sep) eqn:Hc.
    + apply Ascii.eqb_eq in Hc as ->.
      destruct (split_sep_cons sep s "") as (x & l & Hl).
      pose proof (IH "") as IH'. rewrite Hl in *.
      change (Py.join (String sep "") (cur :: x :: l))
        with (cur +:+ String sep "" +:+ Py.join (String sep "") (x :: l)).
      by rewrite IH'.
    + rewrite IH. unfold Py.push. by rewrite append_assoc.
Qed.

(** X7.  The parser loses nothing and cuts at newlines only: joining the
    lines it splits the output into with newlines gives the output back,
    no line contains a newline, and the parsed set is never empty. *)
Theorem parse_packages_lines (output : string) :
  Py.join nl (Py.split_on newline output) = output
  ∧ (∀ l, l ∈ parse_packages output → no_newline l = true)
  ∧ parse_packages output ≠ ∅.
Proof.
  unfold parse_packages, Py.split_on, nl. split; [| split].
  - by rewrite join_split_sep.
  - intros l Hl. apply elem_of_list_to_set in Hl.
    pose proof (split_sep_lines output "" eq_refl) as Hall.
    rewrite Forall_forall in Hall. by apply Hall.
  - destruct (split_sep_cons newline output "") as (x & l & ->).
    set_solver.
Qed.

(** X8.  The empty entry that the parser keeps for the end of the output
    never reaches the differ's projection: for two outputs that end with
    a newline it is in both sets, and when every other line has a token
    the differ returns a set. *)
Theorem differences_of_parsed_outputs (o1 o2 : string) :
  (∀ l, l ∈ parse_packages (o1 +:+ nl) ∪ parse_packages (o2 +:+ nl) →
        l ≠ "" → all_space l = false) →
  ("" ∉ Py.symmetric_difference (parse_packages (o1 +:+ nl))
                                (parse_packages (o2 +:+ nl)))
  ∧ ∃ D, differences (parse_packages (o1 +:+ nl))
                     (parse_packages (o2 +:+ nl)) = Ok D.
Proof.
  intros Hlines.
  assert (∀ o, "" ∈ parse_packages (o +:+ nl)) as Hempty.
  { intros o. unfold parse_packages, Py.split_on, nl.
    apply elem_of_list_to_set, split_sep_trailing. }
  assert ("" ∉ Py.symmetric_difference (parse_packages (o1 +:+ nl))
                                       (parse_packages (o2 +:+ nl)))
    as Hnot.
  { rewrite elem_of_symmetric_difference.
    pose proof (Hempty o1). pose proof (Hempty o2). naive_solver. }
  split; [done |]. apply differences_total. intros l Hl Hsplit.
  assert (l ≠ "") as Hne by (intros ->; done).
  assert (all_space l = false) as Hsp.
  { apply Hlines; [| done].
    apply elem_of_symmetric_difference in Hl. set_solver. }
  apply (split_ws_nil l "") in Hsplit as [_ Hsplit]. congruence.
Qed.

Lemma differences_of_parsed_outputs_witness :
  ("" ∉ Py.symmetric_difference
          (parse_packages (("foo /nix/a" +:+ nl +:+ "bar /nix/b") +:+ nl))
          (parse_packages (("foo /nix/a" +:+ nl +:+ "bar /nix/c") +:+ nl)))
  ∧ ∃ D, differences
           (parse_packages (("foo /nix/a" +:+ nl +:+ "bar /nix/b") +:+ nl))
           (parse_packages (("foo /nix/a" +:+ nl +:+ "bar /nix/c") +:+ nl))
         = Ok D.
Proof.
  apply (differences_of_parsed_outputs
           ("foo /nix/a" +:+ nl +:+ "bar /nix/b")
           ("foo /nix/a" +:+ nl +:+ "bar /nix/c")).
  intros l Hl Hne.
  replace (parse_packages (("foo /nix/a" +:+ nl +:+ "bar /nix/b") +:+ nl)
           ∪ parse_packages (("foo /nix/a" +:+ nl +:+ "bar /nix/c") +:+ nl))
    with ({[ "foo /nix/a"; "bar /nix/b"; "bar /nix/c"; "" ]} : gset string)
    in Hl by (vm_compute; reflexivity).
  set_unfold in Hl. destruct Hl as [[[->| ->]| ->]| ->]; try reflexivity.
  done.
Defined.

(** ** Mirror setup in an arbitrary environment *)

Ltac elem_of_list :=
  repeat first [ apply list_elem_of_here | apply list_elem_of_further ].

Ltac step_setup :=
  repeat (rewrite ?bind_run, ?check_call_run, ?fetch_from_cwd_run,
            ?effect_init; rewrite ?effect_long; norm_world;
          try match goal with
              | |- context [(returncode ?E ?h ?a ?c =? 0)%Z] =>
                  let Hrc := fresh "Hrc" in
                  destruct (returncode E h a c =? 0)%Z eqn:Hrc
              end).

Lemma get_nixpkgs_outcome (E : Env) (w : world) :
  setup_outcome E w (fst (get_nixpkgs E w)) (snd (get_nixpkgs E w)).
Proof.
  cut (∃ r w', get_nixpkgs E w = (r, w') ∧ setup_outcome E w r w').
  { intros (r & w' & -> & H). exact H. }
  destruct w as [tr c h nd me n]. unfold get_nixpkgs.
  destruct nd, me, (cwd_is_repo E) eqn:Hrepo.
  all: unfold exists_nox_dir, exists_nixpkgs, mkdir_nox_dir, echo, pass, ret.
  all: step_setup.
  all: eexists _, _; (split; [reflexivity |]).
  all: unfold setup_outcome, frame, setup_events; rewrite Hrepo.
  all: cbn [fst snd trace cache mirror_head nox_dir_exists mirror_exists].
  all: split;
    [ split; [reflexivity |]; split; [reflexivity |];
      eexists; split; [reflexivity |];
      repeat (apply Forall_cons; split; [elem_of_list |]); apply Forall_nil_2
    | ].
  all: try (split; [reflexivity |]; split; [reflexivity |];
            split; [reflexivity |];
            first [ by exists [] | by eexists [_] | by eexists [_; _]
                  | by eexists [_; _; _] | by eexists [_; _; _; _]
                  | by eexists [_; _; _; _; _]
                  | by eexists [_; _; _; _; _; _] ]).
  all: eexists _, _, _; split; [reflexivity |];
    split; [by apply Z.eqb_neq |]; split; [discriminate |];
    rewrite last_app; reflexivity.
Qed.

Lemma checkouts_nil (evs : list event) :
  Forall (λ ev, checkout_of ev = None) evs → checkouts evs = [].
Proof.
  induction 1 as [|ev evs Hev _ IH]; [done |].
  unfold checkouts in *. cbn [omap list_omap]. by rewrite Hev, IH.
Qed.

Lemma setup_event_git (E : Env) (ev : event) :
  ev ∈ setup_events E →
  checkout_of ev = None
  ∧ (program_of ev = Some "git" ∨ program_of ev = None).
Proof.
  unfold setup_events. intros Hev.
  destruct (cwd_is_repo E);
    repeat (apply elem_of_cons in Hev as [->|Hev];
            [split; [reflexivity | auto] |]);
    by apply elem_of_nil in Hev.
Qed.

(** X9.  In every environment, whatever fails, the mirror setup leaves
    the cache and the revision checked out in the mirror as they are; it
    only adds events to the trace, none of them a checkout, and every
    command it starts is git. *)
Theorem get_nixpkgs_frame (E : Env) (w : world) :
  cache (snd (get_nixpkgs E w)) = cache w
  ∧ mirror_head (snd (get_nixpkgs E w)) = mirror_head w
  ∧ ∃ evs,
      trace (snd (get_nixpkgs E w)) = trace w ++ evs
      ∧ checkouts evs = []
      ∧ Forall (λ ev, program_of ev = Some "git" ∨ program_of ev = None) evs.
Proof.
  destruct (get_nixpkgs_outcome E w) as ((Hc & Hh & evs & Htr & Hevs) & _).
  split; [done |]. split; [done |]. exists evs. split; [done |]. split.
  - apply checkouts_nil. eapply Forall_impl; [exact Hevs |].
    intros ev Hev. by apply (setup_event_git E).
  - eapply Forall_impl; [exact Hevs |].
    intros ev Hev. by apply (setup_event_git E).
Qed.

(** X10.  When the mirror setup returns, it returns the mirror path, the
    tool's directory and the mirror exist, and the last two commands run
    are the fetch of the upstream master and the fetch of the
    pull-request heads: there is no shortcut around the fetches. *)
Theorem get_nixpkgs_success (E : Env) (w w1 : world) (p : string) :
  get_nixpkgs E w = (Ok p, w1) →
  p = nixpkgs_path E
  ∧ nox_dir_exists w1 = true
  ∧ mirror_exists w1 = true
  ∧ ∃ pre,
      trace w1
      = trace w ++ pre
        ++ [Call fetch_master_command (Some (nixpkgs_path E));
            Call fetch_pulls_command (Some (nixpkgs_path E))].
Proof.
  intros Hrun. pose proof (get_nixpkgs_outcome E w) as [_ H].
  by rewrite Hrun in H.
Qed.

Lemma get_nixpkgs_success_witness :
  let E := demo_env no_failure in
  ∃ w1,
    get_nixpkgs E (World [] ∅ None false false 0)
    = (Ok (nixpkgs_path E), w1)
    ∧ nox_dir_exists w1 = true
    ∧ mirror_exists w1 = true
    ∧ ∃ pre,
        trace w1
        = [] ++ pre
          ++ [Call fetch_master_command (Some (nixpkgs_path E));
              Call fetch_pulls_command (Some (nixpkgs_path E))].
Proof.
  intros E.
  destruct (get_nixpkgs E (World [] ∅ None false false 0))
    as [r w1] eqn:Hrun.
  assert (r = Ok (nixpkgs_path E)) as ->.
  { vm_compute in Hrun. injection Hrun as <- _. reflexivity. }
  exists w1. split; [reflexivity |].
  exact (proj2 (get_nixpkgs_success E _ w1 _ Hrun)).
Defined.

(** X11.  When the mirror setup raises a [CalledProcessError], it is that
    of the command run last, whose exit status was not 0, and that
    command is never the opportunistic add-and-fetch of the local
    remote: the [CalledProcessError] of the add-and-fetch does not
    escape. *)
Theorem get_nixpkgs_called_process_error (E : Env) (w : world) (rc : Z)
    (argv : list string) :
  fst (get_nixpkgs E w) = Raise (CalledProcessError rc argv) →
  rc ≠ 0%Z
  ∧ argv ≠ local_add_command E
  ∧ ∃ cwd, last (trace (snd (get_nixpkgs E w))) = Some (Call argv cwd).
Proof.
  intros Hrun. pose proof (get_nixpkgs_outcome E w) as [_ H].
  rewrite Hrun in H. destruct H as (rc' & argv' & cwd & [= -> ->] & H).
  destruct H as (Hrc & Hadd & Hlast). eauto.
Qed.

Lemma get_nixpkgs_called_process_error_witness :
  let E := demo_env local_remote_fails in
  (∀ h cwd, returncode E h (local_add_command E) cwd = 128%Z)
  ∧ (2 ≠ 0)%Z
  ∧ local_remove_command ≠ local_add_command E
  ∧ ∃ cwd,
      last (trace (snd (get_nixpkgs E world0)))
      = Some (Call local_remove_command cwd).
Proof.
  intros E. split; [reflexivity |].
  apply (get_nixpkgs_called_process_error E world0 2 local_remove_command).
  vm_compute. reflexivity.
Defined.

(** X12.  When the current directory is not a repository, the mirror
    setup never runs a command on the temporary remote: neither the
    add-and-fetch nor the removal appears among its events. *)
Theorem get_nixpkgs_no_local_remote (E : Env) (w : world) :
  cwd_is_repo E = false →
  ∃ evs,
    trace (snd (get_nixpkgs E w)) = trace w ++ evs
    ∧ ∀ cwd, (Call (local_add_command E) cwd ∉ evs)
             ∧ (Call local_remove_command cwd ∉ evs).
Proof.
  intros Hrepo.
  destruct (get_nixpkgs_outcome E w) as ((_ & _ & evs & Htr & Hevs) & _).
  exists evs. split; [done |]. intros cwd.
  rewrite Forall_forall in Hevs. unfold setup_events in Hevs.
  rewrite Hrepo in Hevs.
  split; intros Hin; apply Hevs in Hin;
    repeat (apply elem_of_cons in Hin as [Hin|Hin]; [discriminate Hin |]);
    by apply elem_of_nil in Hin.
Qed.

Lemma get_nixpkgs_no_local_remote_witness :
  let E := tree_env false no_failure in
  ∃ evs,
    trace (snd (get_nixpkgs E world0)) = trace world0 ++ evs
    ∧ ∀ cwd, (Call (local_add_command E) cwd ∉ evs)
             ∧ (Call local_remove_command cwd ∉ evs).
Proof.
  intros E. apply (get_nixpkgs_no_local_remote E world0). reflexivity.
Defined.

Lemma get_nixpkgs_refetch (E : Env) (w : world) :
  nox_dir_exists w = true →
  mirror_exists w = true →
  ∃ evs,
    trace (snd (get_nixpkgs E w)) = trace w ++ evs
    ∧ Forall (λ ev, ev ∈ refetch_events E) evs.
Proof.
  destruct w as [tr c h nd me n]. cbn [nox_dir_exists mirror_exists].
  intros -> ->.
  cut (∃ r w', get_nixpkgs E (World tr c h true true n) = (r, w')
               ∧ ∃ evs, trace w' = tr ++ evs
                        ∧ Forall (λ ev, ev ∈ refetch_events E) evs).
  { intros (r & w' & -> & H). exact H. }
  unfold get_nixpkgs.
  destruct (cwd_is_repo E) eqn:Hrepo.
  all: unfold exists_nox_dir, exists_nixpkgs, pass, ret.
  all: step_setup.
  all: eexists _, _; (split; [reflexivity |]).
  all: cbn [trace]; eexists; (split; [reflexivity |]).
  all: unfold refetch_events;
    repeat (apply Forall_cons; split; [elem_of_list |]); apply Forall_nil_2.
Qed.

(** X13.  The mirror is created at most once: a setup that follows a
    successful one creates no directory and runs neither [git init] nor
    the registration of the upstream remote; whatever happens, its
    events are among the two commands on the temporary remote and the
    two fetches. *)
Theorem get_nixpkgs_again (E : Env) (w w1 : world) (p : string) :
  get_nixpkgs E w = (Ok p, w1) →
  ∃ evs,
    trace (snd (get_nixpkgs E w1)) = trace w1 ++ evs
    ∧ Forall (λ ev, ev ∈ refetch_events E) evs.
Proof.
  intros Hrun. pose proof (get_nixpkgs_outcome E w) as [_ H].
  rewrite Hrun in H. destruct H as (_ & Hnd & Hme & _).
  by apply get_nixpkgs_refetch.
Qed.

Lemma get_nixpkgs_again_witness :
  let E := demo_env no_failure in
  let w1 := snd (get_nixpkgs E (World [] ∅ None false false 0)) in
  ∃ evs,
    trace (snd (get_nixpkgs E w1)) = trace w1 ++ evs
    ∧ Forall (λ ev, ev ∈ refetch_events E) evs.
Proof.
  intros E w1.
  apply (get_nixpkgs_again E (World [] ∅ None false false 0) w1
           (nixpkgs_path E)).
  vm_compute. reflexivity.
Defined.

(** ** The builder in an arbitrary environment *)

Lemma program_of_build_command (attrs : list string) (path : string)
    (cwd : option string) :
  program_of (Call (build_command attrs path) cwd) = Some "nix-build".
Proof. reflexivity. Qed.

Lemma build_in_path_outcome (E : Env) (attrs : list string) (path : string)
    (w : world) :
  attrs ≠ [] →
  build_outcome E attrs path w (fst (build_in_path E attrs path w))
                (snd (build_in_path E attrs path w)).
Proof.
  intros Hne.
  cut (∃ r w', build_in_path E attrs path w = (r, w')
               ∧ build_outcome E attrs path w r w').
  { intros (r & w' & -> & H). exact H. }
  destruct w as [tr c h nd me n].
  destruct attrs as [|a attrs]; [done |].
  unfold build_in_path, mkdtemp, echo, secho, try_except.
  rewrite !bind_run. norm_world. rewrite check_call_run. norm_world.
  destruct (returncode E _ (build_command _ _) _ =? 0)%Z.
  all: rewrite ?effect_build_command by done; norm_world.
  all: rewrite bind_run; norm_world; rewrite check_call_run; norm_world.
  all: rewrite ?effect_other by done; norm_world.
  all: destruct (returncode E _ _ None =? 0)%Z eqn:Hls.
  all: eexists _, _; (split; [reflexivity |]).
  all: unfold build_outcome;
    cbn [trace cache mirror_head tmp_count].
  all: split; [reflexivity |]; split; [reflexivity |];
    split; [reflexivity |]; split.
  all: try (eexists _, _; split; [reflexivity |]; split;
            [ repeat (apply Forall_cons; split; [cbn; auto |]);
              apply Forall_nil_2
            | rewrite last_app; reflexivity ]).
  all: intros e He; try discriminate He.
  all: injection He as <-; eexists; split; [reflexivity |];
    by apply Z.eqb_neq.
Qed.

(** X14.  Whatever its commands do, the builder never touches the cache,
    never changes the revision checked out in the mirror, and never runs
    git: the commands it starts are the build and the listing. *)
Theorem build_in_path_frame (E : Env) (attrs : list string) (path : string)
    (w : world) :
  cache (snd (build_in_path E attrs path w)) = cache w
  ∧ mirror_head (snd (build_in_path E attrs path w)) = mirror_head w
  ∧ ∃ evs,
      trace (snd (build_in_path E attrs path w)) = trace w ++ evs
      ∧ checkouts evs = []
      ∧ Forall (λ ev, program_of ev ≠ Some "git") evs.
Proof.
  destruct attrs as [|a attrs].
  { split; [done |]. split; [done |]. exists [Echo "Nothing changed"].
    split; [done |]. split; [done |].
    apply Forall_cons. split; [done | apply Forall_nil_2]. }
  destruct (build_in_path_outcome E (a :: attrs) path w)
    as (Hc & Hh & _ & (msg & rest & Htr & Hrest & _) & _); [done |].
  split; [done |]. split; [done |]. eexists. split; [exact Htr |].
  assert (Forall (λ ev, program_of ev ≠ Some "git") rest) as Hgit.
  { eapply Forall_impl; [exact Hrest |]. intros ev [-> | ->]; done. }
  split.
  - rewrite checkouts_app.
    rewrite (checkouts_nil rest).
    + cbn [checkouts omap list_omap checkout_of app].
      unfold build_command. cbn [app flat_map].
      by destruct (flat_map _ attrs ++ [resolve E path]) as [|? [|? ?]].
    + eapply Forall_impl; [exact Hgit |].
      intros [[|g [|c [|x [|? ?]]]] ?| | | | |] Hev; try done.
      cbn [checkout_of]. case_bool_decide as Hd; [| done].
      destruct Hd as [-> _]. done.
  - repeat (apply Forall_cons; split; [done |]). done.
Qed.

(** X15.  On a non-empty list, whatever the commands do, the build
    command is run exactly once, in the directory that was created just
    before for this call, the listing of that directory is the last
    event, and one more temporary directory has been taken. *)
Theorem build_in_path_once (E : Env) (attrs : list string) (path : string)
    (w : world) :
  attrs ≠ [] →
  let d := mkdtemp_path E "nox-review-" (tmp_count w) in
  let w' := snd (build_in_path E attrs path w) in
  tmp_count w' = S (tmp_count w)
  ∧ last (trace w') = Some (Call ["ls"; "-l"; d] None)
  ∧ ∃ msg rest,
      trace w'
      = trace w ++ [Mkdtemp d; Echo msg;
                    Call (build_command attrs (resolve E path)) (Some d)]
        ++ rest
      ∧ Forall (λ ev, program_of ev ≠ Some "nix-build") rest.
Proof.
  intros Hne d w'.
  destruct (build_in_path_outcome E attrs path w Hne)
    as (_ & _ & Hn & (msg & rest & Htr & Hrest & Hlast) & _).
  split; [done |]. split; [done |]. exists msg, rest. split; [done |].
  eapply Forall_impl; [exact Hrest |]. intros ev [-> | ->]; done.
Qed.

Lemma build_in_path_once_witness :
  let E := demo_env build_fails in
  let w' := snd (build_in_path E ["x"; "y"] "." world0) in
  tmp_count w' = 1
  ∧ last (trace w') = Some (Call ["ls"; "-l"; "/tmp/nox-review-0"] None)
  ∧ ∃ msg rest,
      trace w'
      = [] ++ [Mkdtemp "/tmp/nox-review-0"; Echo msg;
               Call ["nix-build"; "-A"; "x"; "-A"; "y"; "/src/nixpkgs"]
                    (Some "/tmp/nox-review-0")]
        ++ rest
      ∧ Forall (λ ev, program_of ev ≠ Some "nix-build") rest.
Proof.
  intros E. apply (build_in_path_once E ["x"; "y"] "." world0). discriminate.
Defined.

(** X16.  The [CalledProcessError] of a failing build never escapes the
    builder: when the builder raises a [CalledProcessError], it is the
    one of [ls -l] on the result directory, with its non-zero exit
    status, and not the one of the build command. *)
Theorem build_in_path_called_process_error (E : Env) (attrs : list string)
    (path : string) (w : world) (rc : Z) (argv : list string) :
  fst (build_in_path E attrs path w) = Raise (CalledProcessError rc argv) →
  argv = ["ls"; "-l"; mkdtemp_path E "nox-review-" (tmp_count w)]
  ∧ rc ≠ 0%Z
  ∧ argv ≠ build_command attrs (resolve E path).
Proof.
  intros Hrun. destruct attrs as [|a attrs]; [done |].
  destruct (build_in_path_outcome E (a :: attrs) path w)
    as (_ & _ & _ & _ & Hraise); [done |].
  destruct (Hraise _ Hrun) as (rc' & [= -> ->] & Hrc).
  split; [done |]. split; [done |]. discriminate.
Qed.

Lemma build_in_path_called_process_error_witness :
  let E := demo_env build_and_listing_fail in
  (∀ h cwd, returncode E h (build_command ["hello"] (resolve E ".")) cwd
            = 1%Z)
  ∧ ["ls"; "-l"; "/tmp/nox-review-0"]
    = ["ls"; "-l"; mkdtemp_path E "nox-review-" (tmp_count world0)]
  ∧ (2 ≠ 0)%Z
  ∧ ["ls"; "-l"; "/tmp/nox-review-0"]
    ≠ build_command ["hello"] (resolve E ".").
Proof.
  intros E. split; [reflexivity |].
  apply (build_in_path_called_process_error E ["hello"] "." world0 2
           ["ls"; "-l"; "/tmp/nox-review-0"]).
  vm_compute. reflexivity.
Defined.

(** ** The cached lister in an arbitrary environment *)

Lemma cache_effect (E : Env) (argv : list string) (cwd : option string)
    (w : world) :
  cache (effect E argv cwd w) = cache w.
Proof.
  unfold effect. destruct argv as [|g [|c [|x [|? ?]]]]; try done.
  by repeat case_bool_decide.
Qed.

Lemma packages_for_sha_body_outcome (E : Env) (sha : string) (w : world) :
  cache (snd (packages_for_sha_body E sha w)) = cache w
  ∧ ∀ s, fst (packages_for_sha_body E sha w) = Ok s →
         s = revision_packages E sha
         ∧ mirror_head (snd (packages_for_sha_body E sha w)) = Some sha.
Proof.
  unfold packages_for_sha_body. rewrite bind_run.
  pose proof (get_nixpkgs_outcome E w) as [(Hc & _) Hout].
  destruct (get_nixpkgs E w) as [[p|e] w1]; cbn [fst snd] in *;
    [| by split].
  destruct Hout as (-> & _). rewrite bind_run, check_call_run.
  destruct w1 as [tr c h nd me n]. cbn [cache] in Hc. subst c.
  destruct (returncode E _ _ _ =? 0)%Z; [| by split].
  rewrite effect_checkout. unfold packages.
  rewrite bind_run. unfold check_output. norm_world.
  destruct (returncode E _ _ _ =? 0)%Z; [| by split].
  unfold nix_env_command. rewrite effect_long. cbn [fst snd ret].
  split; [done |]. intros s [= <-]. done.
Qed.

(** X17.  The cache stays sound in every environment: if every cached
    set is the evaluator's report for its revision, this still holds
    after a lookup, whatever failed during it; and a lookup that returns
    a set returns the report for the revision asked for. *)
Theorem packages_for_sha_sound (E : Env) (sha : string) (w : world) :
  cache_sound E w →
  cache_sound E (snd (packages_for_sha E sha w))
  ∧ ∀ s, fst (packages_for_sha E sha w) = Ok s → s = revision_packages E sha.
Proof.
  intros Hsound. unfold packages_for_sha, cache_on_arguments.
  destruct (cache w !! sha) as [v|] eqn:Hw; cbn [fst snd].
  - split; [done |]. intros s [= <-]. by apply Hsound.
  - pose proof (packages_for_sha_body_outcome E sha w) as [Hc Hok].
    destruct (packages_for_sha_body E sha w) as [[v|e] w'];
      cbn [fst snd] in *.
    + destruct (Hok v eq_refl) as [-> _]. split; [| by intros s [= <-]].
      intros k s. destruct w'. unfold set_cache. cbn [cache] in *. subst.
      destruct (decide (sha = k)) as [<-|Hne].
      * rewrite lookup_insert_eq. by intros [= <-].
      * rewrite lookup_insert_ne by done. apply Hsound.
    + split; [| done]. intros k s. rewrite Hc. apply Hsound.
Qed.

Lemma packages_for_sha_sound_witness :
  let E := demo_env no_failure in
  let w :=
    World [] {[ "mmm" := revision_packages E "mmm" ]} None true true 0 in
  fst (packages_for_sha E "hhh" w) = Ok (revision_packages E "hhh")
  ∧ cache (snd (packages_for_sha E "hhh" w)) !! "hhh"
    = Some (revision_packages E "hhh")
  ∧ cache (snd (packages_for_sha E "hhh" w)) !! "mmm"
    = Some (revision_packages E "mmm")
  ∧ cache_sound E (snd (packages_for_sha E "hhh" w))
  ∧ ∀ s, fst (packages_for_sha E "hhh" w) = Ok s →
         s = revision_packages E "hhh".
Proof.
  intros E w.
  split; [vm_compute; reflexivity |].
  split; [vm_compute; reflexivity |].
  split; [vm_compute; reflexivity |].
  apply (packages_for_sha_sound E "hhh" w).
  intros sha s Hs. cbn [w cache] in Hs.
  apply lookup_singleton_Some in Hs as [<- <-]. reflexivity.
Defined.

(** X18.  A lookup never drops or replaces a cache entry, and a lookup
    that raises leaves the cache exactly as it was: nothing is stored
    for a revision whose checkout or evaluation failed. *)
Theorem packages_for_sha_cache_grows (E : Env) (sha : string) (w : world) :
  (∀ k v, cache w !! k = Some v →
          cache (snd (packages_for_sha E sha w)) !! k = Some v)
  ∧ ∀ e, fst (packages_for_sha E sha w) = Raise e →
         cache (snd (packages_for_sha E sha w)) = cache w.
Proof.
  unfold packages_for_sha, cache_on_arguments.
  destruct (cache w !! sha) as [v|] eqn:Hw; cbn [fst snd]; [by split |].
  pose proof (packages_for_sha_body_outcome E sha w) as [Hc _].
  destruct (packages_for_sha_body E sha w) as [[v|e] w'];
    cbn [fst snd] in *.
  - split; [| done]. intros k v' Hk. destruct w'. unfold set_cache.
    cbn [cache] in *. subst. rewrite lookup_insert_ne; [done |].
    intros ->. congruence.
  - split; [| done]. intros k v' Hk. by rewrite Hc.
Qed.

(** ** The two other commands *)

Lemma packages_ok (E : Env) (path : string) (w : world) :
  all_succeed E →
  packages E path w
  = (Ok (parse_packages (stdout E (mirror_head w) (nix_env_command path) None)),
     log (Call (nix_env_command path) None) w).
Proof.
  intros Hall. unfold packages.
  rewrite bind_run, check_output_ok by done.
  unfold nix_env_command. by rewrite effect_long.
Qed.

Lemma to_sha_ok (E : Env) (commit : string) (w : world) :
  all_succeed E →
  to_sha E commit w
  = (Ok (Py.strip (stdout E (mirror_head w)
                          ["git"; "rev-parse"; "--verify"; commit] None)),
     log (Call ["git"; "rev-parse"; "--verify"; commit] None) w).
Proof.
  intros Hall. unfold to_sha.
  rewrite bind_run, check_output_ok by done.
  by rewrite effect_long.
Qed.

Lemma revs_run (E : Env) (current reference : string) (w : world)
    (D : gset string) :
  all_succeed E →
  cache_sound E w →
  differences (revision_packages E reference) (revision_packages E current)
  = Ok D →
  ∃ w2 evs,
    revs E current reference w
    = build_in_path E (elements D) (nixpkgs_path E) w2
    ∧ mirror_head w2 = Some current
    ∧ trace w2
      = trace w ++ evs
        ++ [Call ["git"; "checkout"; current] (Some (nixpkgs_path E))]
    ∧ ∀ r, r ∈ checkouts evs → r = reference ∨ r = current.
Proof.
  intros Hall Hsound HD. unfold revs.
  destruct (packages_for_sha_ok E reference w Hall Hsound)
    as (w1 & evs1 & Hrun1 & Hsound1 & Htr1 & Hco1).
  rewrite (bind_Ok _ _ _ _ _ Hrun1).
  destruct (packages_for_sha_ok E current w1 Hall Hsound1)
    as (w2 & evs2 & Hrun2 & Hsound2 & Htr2 & Hco2).
  rewrite (bind_Ok _ _ _ _ _ Hrun2).
  rewrite bind_run. unfold lift. rewrite HD.
  destruct (build_sha_run E (elements D) current w2 Hall)
    as (evs3 & Hrun3 & Hco3).
  rewrite Hrun3. eexists _, (evs1 ++ evs2 ++ evs3).
  split; [reflexivity |]. split; [reflexivity |]. split.
  - cbn [trace]. rewrite Htr2, Htr1. by rewrite <- !app_assoc.
  - intros r. rewrite !checkouts_app, Hco3, app_nil_r.
    intros [Hr|Hr]%elem_of_app; auto.
Qed.

(** X19.  [revs]: with succeeding collaborators and a sound cache, the
    run ends as the build of exactly the names that differ between the
    attribute sets of the reference revision and of the current one,
    entered right after the current revision has been checked out in
    the mirror; before that only these two revisions are checked out,
    and the run returns normally. *)
Theorem revs_builds_difference (E : Env) (current reference : string)
    (w : world) (D : gset string) :
  all_succeed E →
  cache_sound E w →
  differences (revision_packages E reference) (revision_packages E current)
  = Ok D →
  ∃ w2 evs,
    revs E current reference w
    = build_in_path E (elements D) (nixpkgs_path E) w2
    ∧ mirror_head w2 = Some current
    ∧ trace w2
      = trace w ++ evs
        ++ [Call ["git"; "checkout"; current] (Some (nixpkgs_path E))]
    ∧ (∀ r, r ∈ checkouts evs → r = reference ∨ r = current)
    ∧ fst (revs E current reference w) = Ok tt.
Proof.
  intros Hall Hsound HD.
  destruct (revs_run E current reference w D Hall Hsound HD)
    as (w2 & evs & Heq & Hhead & Htr & Hco).
  exists w2, evs. rewrite Heq.
  destruct (build_in_path_ok E (elements D) (nixpkgs_path E) w2 Hall)
    as (evs' & n & -> & _).
  done.
Qed.

Lemma revs_builds_difference_witness :
  let E := demo_env no_failure in
  ∃ w2 evs,
    revs E "hhh" "mmm" world0
    = build_in_path E (elements ({[ "bar"; "baz" ]} : gset string))
                    (nixpkgs_path E) w2
    ∧ mirror_head w2 = Some "hhh"
    ∧ trace w2
      = trace world0 ++ evs
        ++ [Call ["git"; "checkout"; "hhh"] (Some (nixpkgs_path E))]
    ∧ (∀ r, r ∈ checkouts evs → r = "mmm" ∨ r = "hhh")
    ∧ fst (revs E "hhh" "mmm" world0) = Ok tt.
Proof.
  intros E.
  apply (revs_builds_difference E "hhh" "mmm" world0 {[ "bar"; "baz" ]}).
  - intros h argv cwd. reflexivity.
  - intros sha s Hs. cbn [world0 cache] in Hs.
    rewrite lookup_empty in Hs. discriminate.
  - vm_compute. reflexivity.
Defined.

Lemma differences_same (A : gset string) : differences A A = Ok ∅.
Proof.
  unfold differences, Py.symmetric_difference.
  replace (A ∖ A ∪ A ∖ A) with (∅ : gset string) by set_solver.
  by rewrite elements_empty.
Qed.

(** X20.  [revs] of a revision against itself builds nothing: with
    succeeding collaborators and a sound cache, whatever the evaluator
    prints for the revision, the run checks the revision out, says
    "Nothing changed" as its last event and returns normally. *)
Theorem revs_same_revision (E : Env) (rev : string) (w : world) :
  all_succeed E →
  cache_sound E w →
  ∃ w2,
    revs E rev rev w = (Ok tt, log (Echo "Nothing changed") w2)
    ∧ mirror_head w2 = Some rev
    ∧ last (trace w2)
      = Some (Call ["git"; "checkout"; rev] (Some (nixpkgs_path E))).
Proof.
  intros Hall Hsound.
  destruct (revs_run E rev rev w ∅ Hall Hsound (differences_same _))
    as (w2 & evs & Heq & Hhead & Htr & _).
  exists w2. rewrite Heq, elements_empty. split; [done |].
  split; [done |]. rewrite Htr, !app_assoc. apply last_snoc.
Qed.

Lemma revs_same_revision_witness :
  let E := demo_env no_failure in
  ∃ w2,
    revs E "hhh" "hhh" world0 = (Ok tt, log (Echo "Nothing changed") w2)
    ∧ mirror_head w2 = Some "hhh"
    ∧ last (trace w2)
      = Some (Call ["git"; "checkout"; "hhh"] (Some (nixpkgs_path E))).
Proof.
  intros E. apply (revs_same_revision E "hhh" world0).
  - intros h argv cwd. reflexivity.
  - intros sha s Hs. cbn [world0 cache] in Hs.
    rewrite lookup_empty in Hs. discriminate.
Defined.

Lemma wip_run (E : Env) (against : string) (w : world) (D : gset string) :
  all_succeed E →
  cache_sound E w →
  let tree :=
    parse_packages (stdout E (mirror_head w) (nix_env_command ".") None) in
  let sha :=
    Py.strip (stdout E (mirror_head w)
                     ["git"; "rev-parse"; "--verify"; against] None) in
  differences tree (revision_packages E sha) = Ok D →
  ∃ w2 evs,
    wip E against w = build_in_path E (elements D) "." w2
    ∧ trace w2
      = trace w
        ++ [Call (nix_env_command ".") None;
            Call ["git"; "rev-parse"; "--verify"; against] None]
        ++ evs
    ∧ (∀ r, r ∈ checkouts evs → r = sha)
    ∧ ∀ k, k ≠ sha → cache w2 !! k = cache w !! k.
Proof.
  intros Hall Hsound tree sha HD. unfold wip.
  rewrite bind_run, packages_ok by done. fold tree.
  rewrite bind_run, to_sha_ok by done.
  change (mirror_head (log _ w)) with (mirror_head w). fold sha.
  set (w1 := log _ (log _ w)).
  assert (cache_sound E w1) as Hsound1 by exact Hsound.
  pose proof (packages_for_sha_ok E sha w1 Hall Hsound1)
    as (w2 & evs & Hrun & _ & Htr & Hco).
  rewrite (bind_Ok _ _ _ _ _ Hrun).
  rewrite bind_run. unfold lift. rewrite HD.
  exists w2, evs. split; [reflexivity |]. split; [| split; [done |]].
  - rewrite Htr. unfold w1, log. cbn [trace]. by rewrite <- !app_assoc.
  - intros k Hk. unfold packages_for_sha, cache_on_arguments in Hrun.
    change (cache w1) with (cache w) in Hrun.
    destruct (cache w !! sha) as [v|]; [by injection Hrun as _ <- |].
    pose proof (packages_for_sha_body_outcome E sha w1) as [Hc _].
    destruct (packages_for_sha_body E sha w1) as [[v|e] w']; [| done].
    injection Hrun as _ <-. destruct w'. unfold set_cache.
    cbn [cache snd] in *. subst. by rewrite lookup_insert_ne.
Qed.

(** X21.  [wip]: with succeeding collaborators and a sound cache, the
    working tree is evaluated first and directly, the revision name is
    resolved next, and the run ends as the build, in the current
    directory, of exactly the names that differ between the working
    tree's attribute set and that of the resolved revision.  Only the
    resolved revision is ever checked out or cached: the set of the
    working tree is not stored. *)
Theorem wip_builds_difference (E : Env) (against : string) (w : world)
    (D : gset string) :
  all_succeed E →
  cache_sound E w →
  let tree :=
    parse_packages (stdout E (mirror_head w) (nix_env_command ".") None) in
  let sha :=
    Py.strip (stdout E (mirror_head w)
                     ["git"; "rev-parse"; "--verify"; against] None) in
  differences tree (revision_packages E sha) = Ok D →
  ∃ w2 evs,
    wip E against w = build_in_path E (elements D) "." w2
    ∧ trace w2
      = trace w
        ++ [Call (nix_env_command ".") None;
            Call ["git"; "rev-parse"; "--verify"; against] None]
        ++ evs
    ∧ (∀ r, r ∈ checkouts evs → r = sha)
    ∧ (∀ k, k ≠ sha → cache w2 !! k = cache w !! k)
    ∧ fst (wip E against w) = Ok tt.
Proof.
  intros Hall Hsound tree sha HD.
  destruct (wip_run E against w D Hall Hsound HD)
    as (w2 & evs & Heq & Htr & Hco & Hcache).
  exists w2, evs. rewrite Heq.
  destruct (build_in_path_ok E (elements D) "." w2 Hall)
    as (evs' & n & -> & _).
  done.
Qed.

Lemma wip_builds_difference_witness :
  let E := tree_env true no_failure in
  ∃ w2 evs,
    wip E "HEAD" world0
    = build_in_path E (elements ({[ "bar"; "baz" ]} : gset string)) "." w2
    ∧ trace w2
      = trace world0
        ++ [Call (nix_env_command ".") None;
            Call ["git"; "rev-parse"; "--verify"; "HEAD"] None]
        ++ evs
    ∧ (∀ r, r ∈ checkouts evs → r = "mmm")
    ∧ (∀ k, k ≠ "mmm" → cache w2 !! k = cache world0 !! k)
    ∧ fst (wip E "HEAD" world0) = Ok tt.
Proof.
  intros E.
  apply (wip_builds_difference E "HEAD" world0 {[ "bar"; "baz" ]}).
  - intros h argv cwd. reflexivity.
  - intros sha s Hs. cbn [world0 cache] in Hs.
    rewrite lookup_empty in Hs. discriminate.
  - vm_compute. reflexivity.
Defined.

(** X22.  [wip] on a revision name that does not resolve: when the
    evaluation of the working tree succeeds and [git rev-parse] exits
    with a non-zero status, the run raises the [CalledProcessError] of
    that command right there; the mirror is not set up, nothing is
    checked out, cached or built, and the exit status is 1. *)
Theorem wip_unresolved_revision (E : Env) (against : string) (w : world) :
  let evaluate := nix_env_command "." in
  let resolve_rev := ["git"; "rev-parse"; "--verify"; against] in
  let rc := returncode E (trace w ++ [Call evaluate None]) resolve_rev None in
  returncode E (trace w) evaluate None = 0%Z →
  rc ≠ 0%Z →
  wip E against w
  = (Raise (CalledProcessError rc resolve_rev),
     World (trace w ++ [Call evaluate None; Call resolve_rev None])
           (cache w) (mirror_head w) (nox_dir_exists w) (mirror_exists w)
           (tmp_count w))
  ∧ exit_status (fst (wip E against w)) = 1%Z.
Proof.
  intros evaluate resolve_rev rc Heval Hrc. subst rc evaluate resolve_rev.
  apply Z.eqb_neq in Hrc.
  cut (wip E against w
       = (Raise (CalledProcessError
                   (returncode E (trace w ++ [Call (nix_env_command ".") None])
                               ["git"; "rev-parse"; "--verify"; against] None)
                   ["git"; "rev-parse"; "--verify"; against]),
          World (trace w ++ [Call (nix_env_command ".") None;
                             Call ["git"; "rev-parse"; "--verify"; against]
                                  None])
                (cache w) (mirror_head w) (nox_dir_exists w)
                (mirror_exists w) (tmp_count w))).
  { by intros ->. }
  destruct w as [tr c h nd me n]. cbn [trace] in *.
  unfold wip, packages, to_sha, check_output.
  rewrite !bind_run. norm_world. rewrite Heval. cbn [Z.eqb].
  unfold nix_env_command in *. rewrite effect_long. unfold ret.
  norm_world. rewrite !bind_run. norm_world. rewrite Hrc. by norm_world.
Qed.

Lemma wip_unresolved_revision_witness :
  let E := tree_env true rev_parse_fails in
  wip E "HEAD" world0
  = (Raise (CalledProcessError 128 ["git"; "rev-parse"; "--verify"; "HEAD"]),
     World ([] ++ [Call (nix_env_command ".") None;
                   Call ["git"; "rev-parse"; "--verify"; "HEAD"] None])
           ∅ None true true 0)
  ∧ exit_status (fst (wip E "HEAD" world0)) = 1%Z.
Proof.
  intros E. apply (wip_unresolved_revision E "HEAD" world0).
  - reflexivity.
  - vm_compute. discriminate.
Defined.

(** ** Resolving a revision name *)

Lemma lstrip_leading (lead s : string) :
  all_space lead = true → Py.lstrip (lead +:+ s) = Py.lstrip s.
Proof.
  induction lead as [|c lead IH]; intros Hlead; [done |].
  cbn [all_space] in Hlead. apply andb_prop in Hlead as [Hc Hlead].
  rewrite append_cons. cbn [Py.lstrip]. rewrite Hc. by apply IH.
Qed.

Lemma rstrip_blank (trail : string) :
  all_space trail = true → Py.rstrip trail = "".
Proof.
  induction trail as [|c trail IH]; intros Htrail; [done |].
  cbn [all_space] in Htrail. apply andb_prop in Htrail as [Hc Htrail].
  cbn [Py.rstrip]. rewrite IH by done. by rewrite Hc.
Qed.

Lemma rstrip_token (tok trail : string) :
  no_space tok = true → all_space trail = true →
  Py.rstrip (tok +:+ trail) = tok.
Proof.
  intros Htok Htrail. induction tok as [|c tok IH].
  - by apply rstrip_blank.
  - cbn [no_space] in Htok. apply andb_prop in Htok as [Hc Htok].
    apply negb_true_iff in Hc.
    rewrite append_cons. cbn [Py.rstrip]. rewrite IH by done.
    destruct tok; [by rewrite Hc | done].
Qed.

Lemma strip_token (lead tok trail : string) :
  all_space lead = true → no_space tok = true → all_space trail = true →
  Py.strip (lead +:+ tok +:+ trail) = tok.
Proof.
  intros Hlead Htok Htrail. unfold Py.strip.
  rewrite lstrip_leading by done.
  destruct tok as [|c tok].
  - rewrite append_empty_l.
    rewrite <- (append_empty_r trail), lstrip_leading by done. done.
  - pose proof Htok as Htok'. cbn [no_space] in Htok'.
    apply andb_prop in Htok' as [Hc _]. apply negb_true_iff in Hc.
    rewrite append_cons. cbn [Py.lstrip]. rewrite Hc.
    rewrite <- append_cons. by apply rstrip_token.
Qed.

(** X23.  [to_sha]: when [git rev-parse] exits with 0 and prints a
    whitespace-free identifier surrounded by any whitespace (as the
    final newline), the identifier alone is returned, exactly one
    command has been run, and nothing else has changed. *)
Theorem to_sha_returns_identifier (E : Env) (commit lead sha trail : string)
    (w : world) :
  returncode E (trace w) ["git"; "rev-parse"; "--verify"; commit] None = 0%Z →
  stdout E (mirror_head w) ["git"; "rev-parse"; "--verify"; commit] None
  = lead +:+ sha +:+ trail →
  all_space lead = true → no_space sha = true → all_space trail = true →
  to_sha E commit w
  = (Ok sha,
     World (trace w ++ [Call ["git"; "rev-parse"; "--verify"; commit] None])
           (cache w) (mirror_head w) (nox_dir_exists w) (mirror_exists w)
           (tmp_count w)).
Proof.
  intros Hrc Hout Hlead Hsha Htrail. destruct w as [tr c h nd me n].
  cbn [trace mirror_head] in *.
  unfold to_sha, check_output. rewrite bind_run. norm_world.
  rewrite Hrc, Hout. cbn [Z.eqb]. rewrite effect_long. unfold ret.
  norm_world. by rewrite strip_token.
Qed.

Lemma to_sha_returns_identifier_witness :
  to_sha (tree_env true no_failure) "HEAD" world0
  = (Ok "mmm",
     World ([] ++ [Call ["git"; "rev-parse"; "--verify"; "HEAD"] None])
           ∅ None true true 0).
Proof.
  apply (to_sha_returns_identifier (tree_env true no_failure)
           "HEAD" "" "mmm" nl world0); reflexivity.
Defined.

(** X24.  The body of the cached lister (the function without its cache
    decorator), in every environment: when it returns a set, the set is
    the evaluator's report for the revision asked for, that revision is
    the one checked out in the mirror, and the cache has not been
    touched. *)
Theorem packages_for_sha_body_returns (E : Env) (sha : string) (w w' : world)
    (s : gset string) :
  packages_for_sha_body E sha w = (Ok s, w') →
  s = revision_packages E sha
  ∧ mirror_head w' = Some sha
  ∧ cache w' = cache w.
Proof.
  intros Hrun.
  pose proof (packages_for_sha_body_outcome E sha w) as [Hc Hok].
  rewrite Hrun in Hc, Hok. cbn [fst snd] in *.
  destruct (Hok s eq_refl) as [-> Hh]. done.
Qed.

Lemma packages_for_sha_body_returns_witness :
  let E := demo_env no_failure in
  let r := packages_for_sha_body E "mmm" world0 in
  fst r = Ok ({[ "foo /nix/a"; "bar /nix/b"; "" ]} : gset string)
  ∧ mirror_head (snd r) = Some "mmm"
  ∧ cache (snd r) = cache world0.
Proof.
  intros E r.
  destruct (packages_for_sha_body E "mmm" world0) as [res w'] eqn:Hrun.
  assert (res = Ok (revision_packages E "mmm")) as ->.
  { vm_compute in Hrun. injection Hrun as <- _. vm_compute. reflexivity. }
  destruct (packages_for_sha_body_returns E "mmm" world0 w' _ Hrun)
    as (_ & Hh & Hc).
  subst r. cbn [fst snd]. split; [vm_compute; reflexivity | done].
Defined.
